(** * NEKO-translate: the translation CLI and the MLX conversion driver

    A shallow embedding of [src/cat_translate/cli.py] and
    [src/scripts/to_mlx.py].  Python strings are sequences of Unicode code
    points, exceptions are an explicit [Raise] outcome, and everything the
    scripts do to the outside world (standard streams, the language detector,
    the inference runtime, the file system, child processes) is threaded
    through an explicit world state. *)

From Stdlib Require Import ZArith NArith List String Ascii Bool Lia.
From Stdlib Require Import DecimalString SpecFloat.
From stdpp Require Import base option list gmap.

(** ** The fragment of Python both scripts rely on *)

Module Py.

(** A Python [str] is a sequence of code points. *)
Definition str := list N.

(** ASCII literals of the source are written [lit "..."]. *)
Definition lit (s : string) : str := map N_of_ascii (list_ascii_of_string s).
Arguments lit s%_string.

(** [Py_UNICODE_ISSPACE]: the characters [str.strip()] removes and
    [str.isspace()] accepts. *)
Definition isspace (c : N) : bool :=
  ((0x09 <=? c) && (c <=? 0x0D) || (0x1C <=? c) && (c <=? 0x20)
   || (c =? 0x85) || (c =? 0xA0) || (c =? 0x1680)
   || (0x2000 <=? c) && (c <=? 0x200A)
   || (c =? 0x2028) || (c =? 0x2029) || (c =? 0x202F) || (c =? 0x205F)
   || (c =? 0x3000))%N.

Fixpoint lstrip (s : str) : str :=
  match s with
  | c :: s' => if isspace c then lstrip s' else s
  | [] => []
  end.

Definition rstrip (s : str) : str := rev (lstrip (rev s)).

(** [s.strip()] with no argument. *)
Definition strip (s : str) : str := rstrip (lstrip s).

Definition is_ascii (c : N) : bool := (c <? 128)%N.

Definition ascii_tolower (c : N) : N :=
  if ((0x41 <=? c) && (c <=? 0x5A))%N then (c + 32)%N else c.

(** The CJK Unified Ideographs block: letters without case. *)
Definition is_cjk_ideograph (c : N) : bool := ((0x4E00 <=? c) && (c <=? 0x9FFF))%N.

Section Lower.
(** The lowercase expansion of the character at index [i] of [s] as the
    Unicode character database gives it (one character may expand to
    several, and capital sigma depends on its neighbours).  The database
    is not part of the repository; it is consulted only for characters
    that are neither ASCII nor CJK ideographs. *)
Variable unicode_lower_at : str -> nat -> list N.

Definition lower_at (s : str) (i : nat) (c : N) : list N :=
  if is_ascii c then [ascii_tolower c]
  else if is_cjk_ideograph c then [c]
  else unicode_lower_at s i.

(** [s.lower()] *)
Definition lower (s : str) : str := concat (imap (lower_at s) s).
End Lower.

(** Lowercasing on the characters whose mapping needs no table. *)
Definition caseless_or_ascii (c : N) : bool := is_ascii c || is_cjk_ideograph c.
Definition lower_char (c : N) : N := if is_ascii c then ascii_tolower c else c.

(** [sep.join(parts)] *)
Fixpoint join (sep : str) (parts : list str) : str :=
  match parts with
  | [] => []
  | [p] => p
  | p :: ps => p ++ sep ++ join sep ps
  end.

(** [s.split(sep)] for a one-character separator: the pieces between the
    separators, empty pieces included. *)
Fixpoint split (sep : N) (s : str) : list str :=
  match s with
  | [] => [[]]
  | c :: s' =>
      if (c =? sep)%N then [] :: split sep s'
      else match split sep s' with
           | p :: ps => (c :: p) :: ps
           | [] => [[c]]
           end
  end.

(** [str(n)] for an [int]. *)
Definition str_of_int (n : Z) : str := lit (NilZero.string_of_int (Z.to_int n)).

(** [repr] of a list, given the [repr] of its elements: [[a, b, c]]. *)
Definition repr_list {A} (repr_elt : A -> str) (l : list A) : str :=
  lit "[" ++ join (lit ", ") (map repr_elt l) ++ lit "]".

(** [repr] of a string without quotes, backslashes or control characters:
    the string between single quotes. *)
Definition repr_str (s : str) : str := lit "'" ++ s ++ lit "'".

(** Lexicographic order on code points: [a < b] on strings. *)
Fixpoint str_ltb (a b : str) : bool :=
  match a, b with
  | [], [] => false
  | [], _ :: _ => true
  | _ :: _, [] => false
  | x :: a', y :: b' => (x <? y)%N || (x =? y)%N && str_ltb a' b'
  end.

(** [sorted(xs)] as a stable insertion sort on a strict order [ltb]. *)
Fixpoint sorted_insert {A} (ltb : A -> A -> bool) (x : A) (l : list A) : list A :=
  match l with
  | [] => [x]
  | y :: l' => if ltb x y then x :: l else y :: sorted_insert ltb x l'
  end.

Definition sorted {A} (ltb : A -> A -> bool) (l : list A) : list A :=
  foldr (sorted_insert ltb) [] (rev l).

(** *** [pathlib] on a POSIX system

    A path is its root ([], ["/"] or ["//"]) and its components.  Paths are
    compared as texts: [..] and symbolic links are not resolved. *)

Record Path : Type := mkPath { root : str; parts : list str }.

Definition slash : N := 47%N.

(** [posixpath.splitroot]: one leading slash or three and more give the root
    ["/"], exactly two give ["//"]. *)
Definition splitroot (p : str) : str * str :=
  match p with
  | c1 :: rest1 =>
      if negb (c1 =? slash)%N then ([], p)
      else match rest1 with
           | c2 :: rest2 =>
               if negb (c2 =? slash)%N then ([slash], rest1)
               else match rest2 with
                    | c3 :: _ =>
                        if (c3 =? slash)%N then ([slash], rest1)
                        else ([slash; slash], rest2)
                    | [] => ([slash; slash], rest2)
                    end
           | [] => ([slash], rest1)
           end
  | [] => ([], p)
  end.

(** [Path(s)]: empty components and single dots are dropped. *)
Definition PathOf (s : str) : Path :=
  let '(r, rel) := splitroot s in
  mkPath r (filter (fun x => x <> [] /\ x <> lit ".") (split slash rel)).

(** [p / key]: a rooted [key] replaces [p]. *)
Definition truediv (p : Path) (key : str) : Path :=
  let q := PathOf key in
  match root q with
  | [] => mkPath (root p) (parts p ++ parts q)
  | _ :: _ => q
  end.

(** [str(p)] *)
Definition path_str (p : Path) : str :=
  match root p, parts p with
  | [], [] => lit "."
  | r, ps => r ++ join [slash] ps
  end.

(** [p.parent] *)
Definition parent (p : Path) : Path := mkPath (root p) (removelast (parts p)).

#[export] Instance Path_eq_dec : EqDecision Path.
Proof. solve_decision. Defined.

#[export] Instance Path_countable : Countable Path :=
  inj_countable' (fun p => (root p, parts p)) (fun rp => mkPath rp.1 rp.2)
    (fun p => match p with mkPath _ _ => eq_refl end).

(** *** Outcomes and the state-and-exception monad *)

Inductive outcome (E A : Type) : Type :=
| Return (a : A)
| Raise (e : E).
Arguments Return {E A} a.
Arguments Raise {E A} e.

(** A computation over a world [W] that returns an [A] or raises an [E].
    The world a raising computation leaves behind is kept: effects that
    happened before the exception are not undone. *)
Definition M (W E A : Type) : Type := W -> W * outcome E A.

Definition ret {W E A} (a : A) : M W E A := fun w => (w, Return a).
Definition raise {W E A} (e : E) : M W E A := fun w => (w, Raise e).
Definition bind {W E A B} (m : M W E A) (k : A -> M W E B) : M W E B :=
  fun w => match m w with
           | (w', Return a) => k a w'
           | (w', Raise e) => (w', Raise e)
           end.
Definition lift {W E A} (o : outcome E A) : M W E A := fun w => (w, o).
Definition modify {W E} (f : W -> W) : M W E unit := fun w => (f w, Return tt).
Definition gets {W E A} (f : W -> A) : M W E A := fun w => (w, Return (f w)).

Declare Scope py_scope.
Delimit Scope py_scope with py.
Notation "'let!' x ':=' m 'in' k" := (bind m (fun x => k))
  (at level 10, x pattern, m at level 100, k at level 200) : py_scope.
Notation "m ';;;' k" := (bind m (fun _ => k))
  (at level 100, k at level 200, right associativity) : py_scope.

(** [for x in l: body x] *)
Fixpoint for_each {W E A} (l : list A) (body : A -> M W E unit) : M W E unit :=
  match l with
  | [] => ret tt
  | x :: l' => bind (body x) (fun _ => for_each l' body)
  end.

End Py.

Import Py.
Open Scope py_scope.

(** ** [src/cat_translate/cli.py] *)

Module CatTranslate.

Definition PROMPT_TEMPLATE : str :=
  lit "Translate the following {src_lang} text into {tgt_lang}."
    ++ [10; 10]%N ++ lit "{src_text}".

Definition nihongo : str := [0x65E5; 0x672C; 0x8A9E]%N.

Definition LANG_CODE_MAP : gmap str str :=
  list_to_map
    [ (lit "ja", lit "ja");
      (lit "jp", lit "ja");
      (lit "japanese", lit "ja");
      (nihongo, lit "ja");
      (lit "en", lit "en");
      (lit "eng", lit "en");
      (lit "english", lit "en") ].

Definition LANG_NAME_MAP : gmap str str :=
  list_to_map [ (lit "ja", lit "Japanese"); (lit "en", lit "English") ].

Definition SUPPORTED_LANGS : gset str := {[ lit "ja"; lit "en" ]}.

Inductive exn : Type :=
| SystemExit (msg : str)
| KeyError (key : str)
| ValueError (msg : str).

(** [str.format] with keyword arguments, for templates whose replacement fields are
    plain keyword names, as in [PROMPT_TEMPLATE]: no brace escapes, no
    conversions and no format specifications.  [field] is the name being
    read, reversed, while the scan is inside braces.  Substituted values are
    not scanned again. *)
Fixpoint format_from (field : option str) (template : str) (kwargs : gmap str str)
  : outcome exn str :=
  match template, field with
  | [], None => Return []
  | [], Some _ => Raise (ValueError (lit "expected '}' before end of string"))
  | c :: rest, None =>
      if (c =? 123)%N then format_from (Some []) rest kwargs
      else if (c =? 125)%N then
        Raise (ValueError (lit "Single '}' encountered in format string"))
      else match format_from None rest kwargs with
           | Return out => Return (c :: out)
           | Raise e => Raise e
           end
  | c :: rest, Some name =>
      if (c =? 125)%N then
        match kwargs !! rev name with
        | None => Raise (KeyError (rev name))
        | Some value =>
            match format_from None rest kwargs with
            | Return out => Return (value ++ out)
            | Raise e => Raise e
            end
        end
      else format_from (Some (c :: name)) rest kwargs
  end.

Definition format (template : str) (kwargs : gmap str str) : outcome exn str :=
  format_from None template kwargs.

(** The values in a detection result: a language code or a score. *)
Inductive pyval : Type :=
| VStr (s : str)
| VFloat (x : spec_float).

(** [detect] answers with one result [dict] or a list of them. *)
Inductive detect_result : Type :=
| OneResult (d : gmap str pyval)
| ManyResults (l : list (gmap str pyval)).

(** The [argparse.Namespace] of [parse_args]. *)
Record Namespace : Type := {
  model : Path;
  text : option str;
  input_lang : option str;
  output_lang : option str;
  max_new_tokens : Z;
  temperature : spec_float;
  top_p : spec_float;
  top_k : Z;
  trust_remote_code : bool;
  no_chat_template : bool
}.

(** Binary64 [0.0] and [1.0]. *)
Definition float_zero : spec_float := S754_zero false.
Definition float_one : spec_float := S754_finite false 4503599627370496 (-52).

(** [bool(x)] for a [float] ([x != 0.0], so a NaN is true) and for an [int]. *)
Definition float_truth (x : spec_float) : bool := negb (SFeqb x float_zero).
Definition int_truth (n : Z) : bool := negb (n =? 0)%Z.

(** The complement of a code inside the two supported languages, written
    in [resolve_languages] as ["ja" if code == "en" else "en"]. *)
Definition other_lang (code : str) : str :=
  if bool_decide (code = lit "en") then lit "ja" else lit "en".

(** The loop of [detect_lang]: the first item whose ["lang"] is supported. *)
Fixpoint first_supported (results_iter : list (gmap str pyval)) : option str :=
  match results_iter with
  | [] => None
  | item :: rest =>
      match item !! lit "lang" with
      | Some (VStr lang) =>
          if bool_decide (lang ∈ SUPPORTED_LANGS) then Some lang
          else first_supported rest
      | _ => first_supported rest
      end
  end.

(** The condition under which [run_mlx] builds a sampler. *)
Definition wants_sampler (args : Namespace) : bool :=
  (float_truth (temperature args) && SFltb float_zero (temperature args))
  || (float_truth (top_p args) && SFltb (top_p args) float_one)
  || (int_truth (top_k args) && (0 <? top_k args)%Z).

Section Cli.
(** The Unicode lowercase data (see [Py.lower]). *)
Variable unicode_lower_at : str -> nat -> list N.

(** [fast_langdetect.detect(text, k=..., model=...)]. *)
Variable detect : str -> Z -> str -> detect_result.

(** The [mlx_lm] runtime: its objects are opaque.  The detector and the
    runtime are modelled on the runs in which their calls return; the
    program catches nothing, so an exception of theirs would leave
    [detect_lang], [run_mlx] and [main] as it is. *)
Variables Model Tokenizer Sampler : Type.
Variable load : str -> option bool -> Model * Tokenizer.
Variable has_apply_chat_template : Tokenizer -> bool.
Variable apply_chat_template :
  Tokenizer -> list (gmap str str) -> bool -> bool -> str.
Variable make_sampler : spec_float -> spec_float -> Z -> Sampler.

(** The keyword arguments [run_mlx] passes to [generate]: ["sampler"] is
    present only when a sampler was built. *)
Record gen_kwargs : Type := { max_tokens : Z; sampler : option Sampler }.

Variable generate : Model -> Tokenizer -> str -> gen_kwargs -> str.

(** What the program does to its environment, in order. *)
Inductive event : Type :=
| EvDetect (text : str) (k : Z) (model_name : str)
| EvStderr (s : str)
| EvStdout (s : str)
| EvLoad (path : str) (trust : option bool)
| EvApplyChatTemplate (messages : list (gmap str str))
| EvMakeSampler (temp top_p : spec_float) (top_k : Z)
| EvGenerate (prompt_text : str) (kwargs : gen_kwargs).

Record world : Type := {
  stdin_isatty : bool;
  stdin_buf : str;
  trace : list event
}.

(** The world after the events [es]. *)
Definition log (w : world) (es : list event) : world :=
  {| stdin_isatty := stdin_isatty w;
     stdin_buf := stdin_buf w;
     trace := trace w ++ es |}.

Definition emit (e : event) : M world exn unit := modify (fun w => log w [e]).

(** [sys.stdin.read()]: everything up to the end of the input. *)
Definition stdin_read : M world exn str :=
  fun w => ({| stdin_isatty := stdin_isatty w; stdin_buf := [];
               trace := trace w |}, Return (stdin_buf w)).

Definition read_text (args : Namespace) : M world exn str :=
  match text args with
  | Some t => ret t
  | None =>
      let! tty := gets stdin_isatty in
      if tty then raise (SystemExit (lit "Provide --text or pipe input via stdin."))
      else
        let! data := stdin_read in
        if bool_decide (strip data = []) then
          raise (SystemExit (lit "No input text provided via stdin."))
        else ret data
  end.

Definition normalize_lang (value : option str) : outcome exn (option str) :=
  match value with
  | None => Return None
  | Some value =>
      let key := lower unicode_lower_at (strip value) in
      match LANG_CODE_MAP !! key with
      | None =>
          Raise (SystemExit
            (lit "Unsupported language '" ++ value ++ lit "'. Supported: "
               ++ repr_list repr_str (sorted str_ltb (elements SUPPORTED_LANGS))))
      | Some normalized => Return (Some normalized)
      end
  end.

Definition detect_lang (text : str) : M world exn str :=
  emit (EvDetect text 3 (lit "auto"));;;
  let results := detect text 3 (lit "auto") in
  let results_iter :=
    match results with
    | OneResult d => [d]
    | ManyResults l => l
    end in
  match first_supported results_iter with
  | Some lang => ret lang
  | None => raise (SystemExit (lit "Could not detect language as English or Japanese."))
  end.

Definition resolve_languages (args : Namespace) (text : str)
  : M world exn (str * str) :=
  let! input_lang := lift (normalize_lang (input_lang args)) in
  let! output_lang := lift (normalize_lang (output_lang args)) in
  match input_lang, output_lang with
  | None, None =>
      let! input_lang := detect_lang text in
      let output_lang := other_lang input_lang in
      emit (EvStderr (lit "[INFO] Detected " ++ input_lang ++ lit " -> "
                        ++ output_lang ++ [10%N]));;;
      ret (input_lang, output_lang)
  | None, Some output_lang => ret (other_lang output_lang, output_lang)
  | Some input_lang, None => ret (input_lang, other_lang input_lang)
  | Some input_lang, Some output_lang =>
      if bool_decide (input_lang ∉ SUPPORTED_LANGS)
         || bool_decide (output_lang ∉ SUPPORTED_LANGS)
      then raise (SystemExit (lit "Only English and Japanese are supported."))
      else if bool_decide (input_lang = output_lang)
      then raise (SystemExit (lit "Input and output languages must be different."))
      else ret (input_lang, output_lang)
  end.

Definition run_mlx (prompt : str) (args : Namespace) : M world exn str :=
  let trust := if trust_remote_code args then Some true else None in
  emit (EvLoad (path_str (model args)) trust);;;
  let '(mdl, tokenizer) := load (path_str (model args)) trust in
  let messages : list (gmap str str) :=
    [ {[ lit "role" := lit "user"; lit "content" := prompt ]} ] in
  let! prompt_text :=
    (if negb (no_chat_template args) && has_apply_chat_template tokenizer
     then emit (EvApplyChatTemplate messages);;;
          ret (apply_chat_template tokenizer messages true false)
     else ret prompt) in
  let! sampler :=
    (if wants_sampler args
     then emit (EvMakeSampler (temperature args) (top_p args) (top_k args));;;
          ret (Some (make_sampler (temperature args) (top_p args) (top_k args)))
     else ret None) in
  let kwargs := {| max_tokens := max_new_tokens args; sampler := sampler |} in
  emit (EvGenerate prompt_text kwargs);;;
  ret (generate mdl tokenizer prompt_text kwargs).

(** The prompt [main] builds from the resolved pair and the text. *)
Definition build_prompt (input_lang output_lang text : str) : outcome exn str :=
  match LANG_NAME_MAP !! input_lang with
  | None => Raise (KeyError input_lang)
  | Some src_lang =>
      match LANG_NAME_MAP !! output_lang with
      | None => Raise (KeyError output_lang)
      | Some tgt_lang =>
          format PROMPT_TEMPLATE
            {[ lit "src_lang" := src_lang;
               lit "tgt_lang" := tgt_lang;
               lit "src_text" := text ]}
      end
  end.

Definition main (args : Namespace) : M world exn Z :=
  let! text := read_text args in
  let! (input_lang, output_lang) := resolve_languages args text in
  let! prompt := lift (build_prompt input_lang output_lang text) in
  let! translation := run_mlx prompt args in
  emit (EvStdout (translation ++ [10%N]));;;
  ret 0%Z.
End Cli.

Arguments max_tokens {Sampler} _.
Arguments sampler {Sampler} _.
Arguments EvDetect {Sampler} _ _ _.
Arguments EvStderr {Sampler} _.
Arguments EvStdout {Sampler} _.
Arguments EvLoad {Sampler} _ _.
Arguments EvApplyChatTemplate {Sampler} _.
Arguments EvMakeSampler {Sampler} _ _ _.
Arguments EvGenerate {Sampler} _ _.
Arguments stdin_isatty {Sampler} _.
Arguments stdin_buf {Sampler} _.
Arguments trace {Sampler} _.
Arguments log {Sampler} _ _.
Arguments emit {Sampler} _ _.
Arguments stdin_read {Sampler} _.
Arguments read_text {Sampler} _ _.
Arguments detect_lang _ {Sampler} _ _.
Arguments resolve_languages _ _ {Sampler} _ _ _.
Arguments run_mlx {Model Tokenizer Sampler} _ _ _ _ _ _ _ _.
Arguments main _ _ {Model Tokenizer Sampler} _ _ _ _ _ _ _.

End CatTranslate.

(** ** [src/scripts/to_mlx.py] *)

Module ToMlx.

Definition DEFAULT_MODELS : list str :=
  [ lit "cyberagent/CAT-Translate-1.4b"; lit "cyberagent/CAT-Translate-0.8b" ].
Definition DEFAULT_QBITS : list Z := [8; 4]%Z.
Definition SUPPORTED_QBITS : gset Z := {[ 4; 8 ]}%Z.

(** The [argparse.Namespace] of [parse_args]; [models] is [None] when no
    [--model] was given. *)
Record Namespace : Type := {
  models : option (list str);
  qbits : list Z;
  output_dir : Path;
  q_group_size : option Z;
  dtype : option str;
  trust_remote_code : bool
}.

(** What a path of the file system names. *)
Inductive kind : Type := File | Dir.

#[export] Instance kind_eq_dec : EqDecision kind.
Proof. solve_decision. Defined.

Inductive exn : Type :=
| SystemExit (msg : str)
| CalledProcessError (returncode : Z) (cmd : list str)
| FileExistsError (p : Path)
| FileNotFoundError (p : Path)
| NotADirectoryError (p : Path).

Inductive event : Type :=
| EvStdout (s : str)
| EvRun (cmd : list str).

Record world : Type := { fs : gmap Path kind; trace : list event }.

(** The current directory and the roots always exist, as directories. *)
Definition lookup_kind (m : gmap Path kind) (p : Path) : option kind :=
  match parts p with
  | [] => Some Dir
  | _ :: _ => m !! p
  end.

(** [p.exists()] and [p.is_dir()] *)
Definition path_exists (m : gmap Path kind) (p : Path) : bool :=
  bool_decide (is_Some (lookup_kind m p)).
Definition is_dir (m : gmap Path kind) (p : Path) : bool :=
  bool_decide (lookup_kind m p = Some Dir).

(** Every entry lies in a directory. *)
Definition fs_wf (m : gmap Path kind) : Prop :=
  map_Forall (fun p _ => lookup_kind m (parent p) = Some Dir) m.

(** [os.mkdir(p)] *)
Definition os_mkdir (p : Path) (m : gmap Path kind) : gmap Path kind + exn :=
  match lookup_kind m p with
  | Some _ => inr (FileExistsError p)
  | None =>
      match lookup_kind m (parent p) with
      | None => inr (FileNotFoundError p)
      | Some File => inr (NotADirectoryError p)
      | Some Dir => inl (<[p := Dir]> m)
      end
  end.

(** [p.mkdir(parents=False, exist_ok=True)] *)
Definition mkdir_leaf (p : Path) (m : gmap Path kind)
  : gmap Path kind * outcome exn unit :=
  match os_mkdir p m with
  | inl m' => (m', Return tt)
  | inr (FileNotFoundError q) => (m, Raise (FileNotFoundError q))
  | inr e => if is_dir m p then (m, Return tt) else (m, Raise e)
  end.

(** [p.mkdir(parents=True, exist_ok=True)] for [p = mkPath r (rev rparts)]:
    a missing parent is created first, by the same call on [p.parent]. *)
Fixpoint mkdir_parents_rev (r : str) (rparts : list str) (m : gmap Path kind)
  : gmap Path kind * outcome exn unit :=
  let p := mkPath r (rev rparts) in
  match os_mkdir p m with
  | inl m' => (m', Return tt)
  | inr (FileNotFoundError q) =>
      match rparts with
      | [] => (m, Raise (FileNotFoundError q))
      | _ :: rparent =>
          match mkdir_parents_rev r rparent m with
          | (m1, Return _) => mkdir_leaf p m1
          | (m1, Raise e) => (m1, Raise e)
          end
      end
  | inr e => if is_dir m p then (m, Return tt) else (m, Raise e)
  end.

Definition mkdir_parents (p : Path) : M world exn unit :=
  fun w =>
    let '(m', o) := mkdir_parents_rev (root p) (rev (parts p)) (fs w) in
    ({| fs := m'; trace := trace w |}, o).

(** The world after the events [es]. *)
Definition log (w : world) (es : list event) : world :=
  {| fs := fs w; trace := trace w ++ es |}.

Definition emit (e : event) : M world exn unit := modify (fun w => log w [e]).

(** The commands handed to [subprocess.run] so far, oldest first. *)
Fixpoint commands_run (tr : list event) : list (list str) :=
  match tr with
  | [] => []
  | EvRun cmd :: tr' => cmd :: commands_run tr'
  | EvStdout _ :: tr' => commands_run tr'
  end.

(** [shlex.quote]: the characters that need no quoting are the ASCII word
    characters and [@%+=:,./-]. *)
Definition shlex_safe (c : N) : bool :=
  ((0x30 <=? c) && (c <=? 0x39) || (0x41 <=? c) && (c <=? 0x5A)
   || (0x61 <=? c) && (c <=? 0x7A) || (c =? 0x5F)
   || (c =? 0x40) || (c =? 0x25) || (c =? 0x2B) || (c =? 0x3D) || (c =? 0x3A)
   || (c =? 0x2C) || (c =? 0x2E) || (c =? 0x2F) || (c =? 0x2D))%N.

Definition shlex_quote (s : str) : str :=
  match s with
  | [] => lit "''"
  | _ :: _ =>
      if forallb shlex_safe s then s
      else lit "'"
             ++ flat_map (fun c => if (c =? 39)%N then [39; 34; 39; 34; 39]%N else [c]) s
             ++ lit "'"
  end.

Section Driver.
(** [sys.executable] *)
Variable sys_executable : str.

(** The child process: what it leaves of the file system, and its exit
    status. *)
Variable subprocess_run : list str -> gmap Path kind -> gmap Path kind * Z.

Definition build_command (model : str) (out_dir : Path) (qbits : Z)
    (q_group_size : option Z) (dtype : option str) (trust_remote_code : bool)
  : list str :=
  let cmd :=
    [ sys_executable; lit "-m"; lit "mlx_lm"; lit "convert";
      lit "--hf-path"; model;
      lit "--mlx-path"; path_str out_dir;
      lit "-q"; lit "--q-bits"; str_of_int qbits ] in
  let cmd :=
    match q_group_size with
    | Some g => cmd ++ [lit "--q-group-size"; str_of_int g]
    | None => cmd
    end in
  let cmd :=
    match dtype with
    | Some d => cmd ++ [lit "--dtype"; d]
    | None => cmd
    end in
  if trust_remote_code then cmd ++ [lit "--trust-remote-code"] else cmd.

(** [subprocess.run(cmd, check=True)] *)
Definition run_checked (cmd : list str) : M world exn unit :=
  fun w =>
    let '(m', returncode) := subprocess_run cmd (fs w) in
    let w' := log {| fs := m'; trace := trace w |} [EvRun cmd] in
    if (returncode =? 0)%Z then (w', Return tt)
    else (w', Raise (CalledProcessError returncode cmd)).

(** [args.output_dir / model / f"q{qbits}"] *)
Definition out_dir_of (args : Namespace) (model : str) (qbits : Z) : Path :=
  truediv (truediv (output_dir args) model) (lit "q" ++ str_of_int qbits).

Definition command_of (args : Namespace) (model : str) (qbits : Z) : list str :=
  build_command model (out_dir_of args model qbits) qbits
    (q_group_size args) (dtype args) (trust_remote_code args).

(** The body of the inner loop of [main]. *)
Definition job (args : Namespace) (model : str) (qbits : Z) : M world exn unit :=
  let out_dir := out_dir_of args model qbits in
  mkdir_parents (parent out_dir);;;
  let! there := gets (fun w => path_exists (fs w) out_dir) in
  if there then
    raise (SystemExit
      (lit "Output path already exists: " ++ path_str out_dir ++ lit ". "
         ++ lit "Please delete/move it or choose another output directory."))
  else
    let cmd := command_of args model qbits in
    emit (EvStdout (lit "Running: " ++ join (lit " ") (map shlex_quote cmd)
                      ++ [10%N]));;;
    run_checked cmd.

(** [args.models or DEFAULT_MODELS] *)
Definition models_of (args : Namespace) : list str :=
  match models args with
  | None | Some [] => DEFAULT_MODELS
  | Some l => l
  end.

Definition invalid_qbits (args : Namespace) : list Z :=
  filter (fun q => q ∉ SUPPORTED_QBITS) (qbits args).

Definition main (args : Namespace) : M world exn Z :=
  let models := models_of args in
  let qbits_list := qbits args in
  match invalid_qbits args with
  | _ :: _ =>
      raise (SystemExit
        (lit "Unsupported qbits: " ++ repr_list str_of_int (invalid_qbits args)
           ++ lit ". Supported values: "
           ++ repr_list str_of_int (sorted Z.ltb (elements SUPPORTED_QBITS))))
  | [] =>
      for_each models (fun model =>
        for_each qbits_list (fun qbits => job args model qbits));;;
      ret 0%Z
  end.
End Driver.

End ToMlx.

(** ** Concrete environments

    One detector, one inference runtime and one child process to run the
    two programs on. *)

Module Scenario.

(** Unicode tables under which no character outside ASCII has case. *)
Definition caseless_table : str -> nat -> list N :=
  fun s i => match s !! i with Some c => [c] | None => [] end.

Definition candidate (code : string) (score : spec_float) : gmap str CatTranslate.pyval :=
  {[ lit "lang" := CatTranslate.VStr (lit code);
     lit "score" := CatTranslate.VFloat score ]}.

(** Binary64 [0.5] and [0.25]. *)
Definition float_half : spec_float := S754_finite false 4503599627370496 (-53).
Definition float_quarter : spec_float := S754_finite false 4503599627370496 (-54).

(** A detector that ranks French, English, Japanese for every text. *)
Definition detect_fr_en_ja : str -> Z -> str -> CatTranslate.detect_result :=
  fun _ _ _ =>
    CatTranslate.ManyResults
      [ candidate "fr" float_half; candidate "en" float_quarter;
        candidate "ja" float_quarter ].

(** A detector that finds neither English nor Japanese. *)
Definition detect_fr_de_es : str -> Z -> str -> CatTranslate.detect_result :=
  fun _ _ _ =>
    CatTranslate.ManyResults
      [ candidate "fr" float_half; candidate "de" float_quarter;
        candidate "es" float_quarter ].

(** A runtime whose tokenizer has no chat template, whose sampler is the
    triple it was made from and whose model echoes the prompt. *)
Definition load : str -> option bool -> unit * unit := fun _ _ => (tt, tt).
Definition has_apply_chat_template : unit -> bool := fun _ => false.
Definition apply_chat_template : unit -> list (gmap str str) -> bool -> bool -> str :=
  fun _ _ _ _ => [].
Definition make_sampler : spec_float -> spec_float -> Z -> spec_float * spec_float * Z :=
  fun t p k => (t, p, k).
Definition generate
  : unit -> unit -> str -> CatTranslate.gen_kwargs (spec_float * spec_float * Z) -> str :=
  fun _ _ prompt_text _ => prompt_text.

(** The command line without any flag. *)
Definition cli_defaults : CatTranslate.Namespace :=
  {| CatTranslate.model := PathOf (lit "output/mlx/cyberagent/CAT-Translate-0.8b/q4");
     CatTranslate.text := Some (lit "Hello");
     CatTranslate.input_lang := None;
     CatTranslate.output_lang := None;
     CatTranslate.max_new_tokens := 512;
     CatTranslate.temperature := CatTranslate.float_zero;
     CatTranslate.top_p := CatTranslate.float_one;
     CatTranslate.top_k := 0;
     CatTranslate.trust_remote_code := false;
     CatTranslate.no_chat_template := false |}.

Definition cli_with_langs (i o : option str) : CatTranslate.Namespace :=
  {| CatTranslate.model := CatTranslate.model cli_defaults;
     CatTranslate.text := CatTranslate.text cli_defaults;
     CatTranslate.input_lang := i;
     CatTranslate.output_lang := o;
     CatTranslate.max_new_tokens := 512;
     CatTranslate.temperature := CatTranslate.float_zero;
     CatTranslate.top_p := CatTranslate.float_one;
     CatTranslate.top_k := 0;
     CatTranslate.trust_remote_code := false;
     CatTranslate.no_chat_template := false |}.

Definition cli_with_sampling (t p : spec_float) (k : Z) : CatTranslate.Namespace :=
  {| CatTranslate.model := CatTranslate.model cli_defaults;
     CatTranslate.text := CatTranslate.text cli_defaults;
     CatTranslate.input_lang := None;
     CatTranslate.output_lang := None;
     CatTranslate.max_new_tokens := 512;
     CatTranslate.temperature := t;
     CatTranslate.top_p := p;
     CatTranslate.top_k := k;
     CatTranslate.trust_remote_code := false;
     CatTranslate.no_chat_template := false |}.

Definition cli_with_text (t : str) : CatTranslate.Namespace :=
  {| CatTranslate.model := CatTranslate.model cli_defaults;
     CatTranslate.text := Some t;
     CatTranslate.input_lang := None;
     CatTranslate.output_lang := None;
     CatTranslate.max_new_tokens := 512;
     CatTranslate.temperature := CatTranslate.float_zero;
     CatTranslate.top_p := CatTranslate.float_one;
     CatTranslate.top_k := 0;
     CatTranslate.trust_remote_code := false;
     CatTranslate.no_chat_template := false |}.

Definition cli_stdin : CatTranslate.Namespace :=
  {| CatTranslate.model := CatTranslate.model cli_defaults;
     CatTranslate.text := None;
     CatTranslate.input_lang := None;
     CatTranslate.output_lang := None;
     CatTranslate.max_new_tokens := 512;
     CatTranslate.temperature := CatTranslate.float_zero;
     CatTranslate.top_p := CatTranslate.float_one;
     CatTranslate.top_k := 0;
     CatTranslate.trust_remote_code := false;
     CatTranslate.no_chat_template := false |}.

(** A piped standard input holding [data], nothing done yet. *)
Definition piped (data : str) : CatTranslate.world (spec_float * spec_float * Z) :=
  {| CatTranslate.stdin_isatty := false;
     CatTranslate.stdin_buf := data;
     CatTranslate.trace := [] |}.

(** A conversion tool that succeeds and leaves the converted model behind. *)
Definition mlx_path_of (cmd : list str) : Path :=
  match cmd !! 7%nat with
  | Some p => PathOf p
  | None => PathOf []
  end.

Definition convert_ok : list str -> gmap Path ToMlx.kind -> gmap Path ToMlx.kind * Z :=
  fun cmd m => (<[mlx_path_of cmd := ToMlx.Dir]> m, 0%Z).

Definition convert_args (ms : list string) (qs : list Z) : ToMlx.Namespace :=
  {| ToMlx.models := Some (map lit ms);
     ToMlx.qbits := qs;
     ToMlx.output_dir := PathOf (lit "out");
     ToMlx.q_group_size := None;
     ToMlx.dtype := None;
     ToMlx.trust_remote_code := false |}.

(** A file system holding the directories [ps] and nothing else. *)
Definition dirs (ps : list string) : gmap Path ToMlx.kind :=
  list_to_map (map (fun p => (PathOf (lit p), ToMlx.Dir)) ps).

Definition disk (ps : list string) : ToMlx.world :=
  {| ToMlx.fs := dirs ps; ToMlx.trace := [] |}.

(** The command line of one conversion, as [python3] runs it. *)
Definition convert_command (model out_dir bits : string) : list str :=
  [ lit "python3"; lit "-m"; lit "mlx_lm"; lit "convert";
    lit "--hf-path"; lit model; lit "--mlx-path"; lit out_dir;
    lit "-q"; lit "--q-bits"; lit bits ].

(** A disk on which [out/m1/q4] is left from an earlier run, before and
    after the 8-bit conversion of [m1]. *)
Definition disk_with_q4 : ToMlx.world := disk ["out"; "out/m1"; "out/m1/q4"]%string.

Definition disk_with_q4_q8 : ToMlx.world :=
  {| ToMlx.fs := dirs ["out"; "out/m1"; "out/m1/q4"; "out/m1/q8"]%string;
     ToMlx.trace :=
       [ ToMlx.EvStdout
           (lit "Running: python3 -m mlx_lm convert --hf-path m1 --mlx-path out/m1/q8 -q --q-bits 8"
              ++ [10%N]);
         ToMlx.EvRun (convert_command "m1" "out/m1/q8" "8") ] |}.

End Scenario.

(** ** Further environments *)

Module Environments.

(** A conversion tool that does nothing and succeeds, and one that does
    nothing and exits with status 1. *)
Definition tool_idle : list str -> gmap Path ToMlx.kind -> gmap Path ToMlx.kind * Z :=
  fun _ m => (m, 0%Z).
Definition tool_failing : list str -> gmap Path ToMlx.kind -> gmap Path ToMlx.kind * Z :=
  fun _ m => (m, 1%Z).

(** A tokenizer with a chat template that wraps the content of the first
    message. *)
Definition has_chat_template : unit -> bool := fun _ => true.
Definition chat_template : unit -> list (gmap str str) -> bool -> bool -> str :=
  fun _ messages _ _ =>
    match messages with
    | m :: _ => lit "<user>" ++ default [] (m !! lit "content") ++ lit "<assistant>"
    | [] => lit "<assistant>"
    end.

(** The command line with [--no-chat-template]. *)
Definition cli_no_chat_template : CatTranslate.Namespace :=
  {| CatTranslate.model := CatTranslate.model Scenario.cli_defaults;
     CatTranslate.text := Some (lit "Hello");
     CatTranslate.input_lang := None;
     CatTranslate.output_lang := None;
     CatTranslate.max_new_tokens := 512;
     CatTranslate.temperature := CatTranslate.float_zero;
     CatTranslate.top_p := CatTranslate.float_one;
     CatTranslate.top_k := 0;
     CatTranslate.trust_remote_code := false;
     CatTranslate.no_chat_template := true |}.

(** A result [dict] on its own, as [detect] gives it for a single guess. *)
Definition detect_single_ja : str -> Z -> str -> CatTranslate.detect_result :=
  fun _ _ _ => CatTranslate.OneResult (Scenario.candidate "ja" Scenario.float_half).

End Environments.

(** ** Facts about the Python fragment *)

Module PyFacts.

Lemma lstrip_nil (s : str) : lstrip s = [] <-> forallb isspace s = true.
Proof.
  induction s as [|c s IH]; simpl; [tauto|].
  destruct (isspace c); simpl; [exact IH|].
  split; discriminate.
Qed.

Lemma lstrip_spaces_app (pre s : str) :
  forallb isspace pre = true -> lstrip (pre ++ s) = lstrip s.
Proof.
  induction pre as [|c pre IH]; simpl; [reflexivity|].
  intros [Hc Hpre]%andb_prop. rewrite Hc. auto.
Qed.

Lemma lstrip_app_keep (s post : str) :
  lstrip s <> [] -> lstrip (s ++ post) = lstrip s ++ post.
Proof.
  induction s as [|c s IH]; simpl; [congruence|].
  destruct (isspace c); auto.
Qed.

Lemma forallb_isspace_lstrip (s : str) :
  forallb isspace (lstrip s) = forallb isspace s.
Proof.
  induction s as [|c s IH]; simpl; [reflexivity|].
  destruct (isspace c) eqn:Hc; simpl; [exact IH|].
  now rewrite Hc.
Qed.

Lemma forallb_rev {A} (f : A -> bool) (l : list A) :
  forallb f (rev l) = forallb f l.
Proof.
  induction l as [|x l IH]; simpl; [reflexivity|].
  rewrite forallb_app, IH. simpl. rewrite andb_true_r. apply andb_comm.
Qed.

(** [not s.strip()] holds exactly for the strings made of white space,
    the empty string among them. *)
Lemma strip_nil (s : str) : strip s = [] <-> forallb isspace s = true.
Proof.
  unfold strip, rstrip.
  rewrite <- (forallb_isspace_lstrip s), <- (forallb_rev isspace (lstrip s)).
  rewrite <- lstrip_nil. split.
  - intros H. apply (f_equal (@rev N)) in H. now rewrite rev_involutive in H.
  - intros ->. reflexivity.
Qed.

(** White space around a string does not change what [strip] returns. *)
Lemma strip_padding (pre s post : str) :
  forallb isspace pre = true -> forallb isspace post = true ->
  strip (pre ++ s ++ post) = strip s.
Proof.
  intros Hpre Hpost. unfold strip. rewrite lstrip_spaces_app by exact Hpre.
  destruct (lstrip s) as [|c t] eqn:Hs.
  - apply lstrip_nil in Hs.
    assert (Hall : forallb isspace (s ++ post) = true)
      by (rewrite forallb_app, Hs, Hpost; reflexivity).
    apply lstrip_nil in Hall. now rewrite Hall.
  - rewrite lstrip_app_keep by (rewrite Hs; discriminate).
    rewrite Hs. unfold rstrip. rewrite rev_app_distr.
    rewrite lstrip_spaces_app by (now rewrite forallb_rev).
    reflexivity.
Qed.

Lemma concat_imap_singleton {A B} (g : A -> B) (l : list A) :
  forall f : nat -> A -> list B,
    (forall i c, In c l -> f i c = [g c]) -> concat (imap f l) = map g l.
Proof.
  induction l as [|x l IH]; intros f Hf; simpl; [reflexivity|].
  rewrite (Hf 0%nat x) by (now left). simpl. f_equal.
  apply IH. intros i c Hc. apply Hf. now right.
Qed.

(** On ASCII and CJK text [lower] is the character-wise ASCII mapping,
    whatever the Unicode tables say about other characters. *)
Lemma lower_known (tbl : str -> nat -> list N) (s : str) :
  forallb caseless_or_ascii s = true -> lower tbl s = map lower_char s.
Proof.
  intros Hall. unfold lower. apply concat_imap_singleton.
  intros i c Hc. rewrite forallb_forall in Hall. specialize (Hall c Hc).
  unfold lower_at, lower_char, caseless_or_ascii in *.
  destruct (is_ascii c); [reflexivity|]. simpl in Hall. now rewrite Hall.
Qed.

(** Lowercasing never turns a character into white space or back. *)
Lemma isspace_lower_char (c : N) : isspace (lower_char c) = isspace c.
Proof.
  unfold lower_char, ascii_tolower.
  destruct (is_ascii c); [|reflexivity].
  destruct ((0x41 <=? c)%N && (c <=? 0x5A)%N) eqn:Hup; [|reflexivity].
  apply andb_prop in Hup as [H1%N.leb_le H2%N.leb_le].
  unfold isspace.
  repeat match goal with
  | |- context [(?a <=? ?b)%N] => destruct (N.leb_spec a b); try lia
  | |- context [(?a =? ?b)%N] => destruct (N.eqb_spec a b); try lia
  end; reflexivity.
Qed.

Lemma lstrip_length (s : str) : (length (lstrip s) <= length s)%nat.
Proof.
  induction s as [|c s IH]; simpl; [lia|]. destruct (isspace c); simpl; lia.
Qed.

Lemma lstrip_same_length (s : str) : length (lstrip s) = length s -> lstrip s = s.
Proof.
  destruct s as [|c s]; simpl; [reflexivity|].
  destruct (isspace c); [|reflexivity].
  pose proof (lstrip_length s). lia.
Qed.

Lemma strip_same_length (s : str) : length (strip s) = length s -> strip s = s.
Proof.
  unfold strip, rstrip. rewrite length_rev. intros Hlen.
  pose proof (lstrip_length s) as H1.
  pose proof (lstrip_length (rev (lstrip s))) as H2.
  rewrite length_rev in H2.
  rewrite (lstrip_same_length (rev (lstrip s))) by (rewrite length_rev; lia).
  rewrite rev_involutive. apply lstrip_same_length. lia.
Qed.

Lemma lstrip_map_lower (s : str) :
  lstrip (map lower_char s) = map lower_char (lstrip s).
Proof.
  induction s as [|c s IH]; simpl; [reflexivity|].
  rewrite isspace_lower_char. destruct (isspace c); [exact IH|reflexivity].
Qed.

Lemma strip_map_lower (s : str) :
  strip (map lower_char s) = map lower_char (strip s).
Proof.
  unfold strip, rstrip.
  now rewrite lstrip_map_lower, <- map_rev, lstrip_map_lower, map_rev.
Qed.

(** A spelling whose lowercase form needs no trimming needs none itself. *)
Lemma strip_of_lower_fixed (s : str) :
  strip (map lower_char s) = map lower_char s -> strip s = s.
Proof.
  intros H. apply strip_same_length.
  rewrite strip_map_lower in H. apply (f_equal (@length N)) in H.
  now rewrite !length_map in H.
Qed.

Lemma caseless_or_ascii_lower (c : N) :
  caseless_or_ascii (lower_char c) = true -> caseless_or_ascii c = true.
Proof.
  unfold caseless_or_ascii, lower_char.
  destruct (is_ascii c) eqn:Ha; [reflexivity|]. now rewrite Ha.
Qed.

Lemma caseless_or_ascii_map_lower (s : str) :
  forallb caseless_or_ascii (map lower_char s) = true ->
  forallb caseless_or_ascii s = true.
Proof.
  induction s as [|c s IH]; simpl; [reflexivity|].
  intros [Hc Hs]%andb_prop. now rewrite (caseless_or_ascii_lower c Hc), IH.
Qed.

End PyFacts.

(** ** The translation CLI *)

Module CatTranslateSpec.
Import CatTranslate PyFacts.

Lemma supported_langs_repr :
  repr_list repr_str (sorted str_ltb (elements SUPPORTED_LANGS)) = lit "['en', 'ja']".
Proof. vm_compute. reflexivity. Qed.

Lemma lang_code_map_values (key code : str) :
  LANG_CODE_MAP !! key = Some code -> code = lit "ja" \/ code = lit "en".
Proof.
  intros H. apply elem_of_list_to_map_2 in H.
  repeat (apply elem_of_cons in H as [H|H]; [injection H as _ ->; auto|]).
  now apply elem_of_nil in H.
Qed.

Lemma supported_langs_cases (code : str) :
  code ∈ SUPPORTED_LANGS <-> code = lit "ja" \/ code = lit "en".
Proof. unfold SUPPORTED_LANGS. set_solver. Qed.

(** The keys of the synonym table. *)
Lemma lang_code_map_lookup (key : str) :
  LANG_CODE_MAP !! key =
    if bool_decide (In key [lit "ja"; lit "jp"; lit "japanese"; nihongo]) then Some (lit "ja")
    else if bool_decide (In key [lit "en"; lit "eng"; lit "english"]) then Some (lit "en")
    else None.
Proof.
  repeat case_bool_decide.
  - simpl in *. intuition subst; reflexivity.
  - simpl in *. intuition subst; reflexivity.
  - apply not_elem_of_list_to_map_1. simpl in *.
    rewrite !elem_of_cons, elem_of_nil. intuition congruence.
Qed.

Section Normalize.
Variable unicode_lower_at : str -> nat -> list N.
Local Abbreviation normalize_lang := (CatTranslate.normalize_lang unicode_lower_at).

Lemma normalize_lang_key (value : str) :
  normalize_lang (Some value) =
    match LANG_CODE_MAP !! lower unicode_lower_at (strip value) with
    | Some code => Return (Some code)
    | None =>
        Raise (SystemExit (lit "Unsupported language '" ++ value
                             ++ lit "'. Supported: ['en', 'ja']"))
    end.
Proof.
  unfold CatTranslate.normalize_lang. rewrite supported_langs_repr.
  destruct (LANG_CODE_MAP !! _); reflexivity.
Qed.

(** Every key of the synonym table is trimmed ASCII or CJK text. *)
Lemma lang_code_map_keys_plain (key code : str) :
  LANG_CODE_MAP !! key = Some code ->
  strip key = key /\ forallb caseless_or_ascii key = true.
Proof.
  intros H. apply elem_of_list_to_map_2 in H.
  repeat (apply elem_of_cons in H as [H|H];
          [injection H as -> _; split; vm_compute; reflexivity|]).
  now apply elem_of_nil in H.
Qed.

(** Any spelling of a key, in whatever mix of upper and lower case and
    with white space around it, is read as that key. *)
Lemma normalize_lang_spelling (pre tok post code : str) :
  forallb isspace pre = true -> forallb isspace post = true ->
  LANG_CODE_MAP !! map lower_char tok = Some code ->
  normalize_lang (Some (pre ++ tok ++ post)) = Return (Some code).
Proof.
  intros Hpre Hpost Hkey.
  destruct (lang_code_map_keys_plain _ _ Hkey) as [Hstrip Hplain].
  rewrite normalize_lang_key, strip_padding by assumption.
  rewrite (strip_of_lower_fixed tok Hstrip).
  rewrite lower_known by (now apply caseless_or_ascii_map_lower).
  unfold str in *. now rewrite Hkey.
Qed.

(** C5: normalization trims white space and ignores case: a token whose
    trimmed, lowercased form is one of [ja], [jp], [japanese], [日本語]
    gives the code [ja]; one of [en], [eng], [english] gives [en]; any
    other token makes normalization fail with a message that quotes the
    token as given and lists the supported codes.  Every spelling of a
    synonym in mixed case with white space around it is such a token. *)
Theorem normalize_lang_synonyms (value : str) :
  let key := lower unicode_lower_at (strip value) in
  (In key [lit "ja"; lit "jp"; lit "japanese"; nihongo] ->
     normalize_lang (Some value) = Return (Some (lit "ja")))
  /\ (In key [lit "en"; lit "eng"; lit "english"] ->
        normalize_lang (Some value) = Return (Some (lit "en")))
  /\ (~ In key [lit "ja"; lit "jp"; lit "japanese"; nihongo;
                lit "en"; lit "eng"; lit "english"] ->
        normalize_lang (Some value)
        = Raise (SystemExit (lit "Unsupported language '" ++ value
                               ++ lit "'. Supported: ['en', 'ja']")))
  /\ (forall pre tok post,
        value = pre ++ tok ++ post ->
        forallb isspace pre = true -> forallb isspace post = true ->
        In (map lower_char tok)
           [lit "ja"; lit "jp"; lit "japanese"; nihongo;
            lit "en"; lit "eng"; lit "english"] ->
        key = map lower_char tok).
Proof.
  intros key. subst key. rewrite normalize_lang_key, lang_code_map_lookup.
  repeat split.
  - intros H. now rewrite bool_decide_eq_true_2.
  - intros H. case_bool_decide as H1; [|now rewrite bool_decide_eq_true_2].
    exfalso. simpl in H, H1.
    destruct H as [H|[H|[H|[]]]]; rewrite <- H in H1;
      destruct H1 as [H1|[H1|[H1|[H1|[]]]]]; discriminate H1.
  - intros H. rewrite !bool_decide_eq_false_2; [reflexivity| |];
      intros H1; apply H; simpl in *; tauto.
  - intros pre tok post -> Hpre Hpost Hin.
    assert (Hkey : is_Some (LANG_CODE_MAP !! map lower_char tok)).
    { rewrite lang_code_map_lookup. simpl in Hin.
      repeat case_bool_decide; simpl in *; eauto; tauto. }
    destruct Hkey as [code Hkey].
    destruct (lang_code_map_keys_plain _ _ Hkey) as [Hstrip Hplain].
    rewrite strip_padding by assumption.
    rewrite (strip_of_lower_fixed tok Hstrip).
    now rewrite lower_known by (now apply caseless_or_ascii_map_lower).
Qed.
End Normalize.

(** C5 on [" JaPaNeSe\n"], ["ENG"] and ["fr "]. *)
Lemma normalize_lang_synonyms_witness :
  normalize_lang Scenario.caseless_table (Some (lit " JaPaNeSe" ++ [10%N]))
  = Return (Some (lit "ja"))
  /\ normalize_lang Scenario.caseless_table (Some (lit "ENG"))
     = Return (Some (lit "en"))
  /\ normalize_lang Scenario.caseless_table (Some (lit "fr "))
     = Raise (SystemExit (lit "Unsupported language 'fr '. Supported: ['en', 'ja']")).
Proof.
  split; [|split].
  - apply (proj1 (normalize_lang_synonyms Scenario.caseless_table
                    (lit " JaPaNeSe" ++ [10%N]))).
    vm_compute. tauto.
  - apply (proj1 (proj2 (normalize_lang_synonyms Scenario.caseless_table (lit "ENG")))).
    vm_compute. tauto.
  - apply (proj1 (proj2 (proj2 (normalize_lang_synonyms Scenario.caseless_table
                                  (lit "fr "))))).
    vm_compute. intuition discriminate.
Defined.

Section ReadText.
Context {Sampler : Type}.

(** C10: a text given with [--text] is returned as it is, empty or blank
    included, and the world is left alone; text piped on standard input is
    rejected exactly when it is empty or all white space, and returned
    unchanged otherwise. *)
Theorem read_text_flag_or_stdin (args : Namespace) (w : world Sampler) :
  (forall t, text args = Some t -> read_text args w = (w, Return t))
  /\ (text args = None -> stdin_isatty w = true ->
        read_text args w
        = (w, Raise (SystemExit (lit "Provide --text or pipe input via stdin."))))
  /\ (text args = None -> stdin_isatty w = false ->
        let w' := {| stdin_isatty := false; stdin_buf := []; trace := trace w |} in
        (forallb isspace (stdin_buf w) = true ->
           read_text args w
           = (w', Raise (SystemExit (lit "No input text provided via stdin."))))
        /\ (forallb isspace (stdin_buf w) = false ->
              read_text args w = (w', Return (stdin_buf w)))).
Proof.
  unfold read_text. split; [|split].
  - intros t ->. reflexivity.
  - intros -> Htty. unfold bind, gets. now rewrite Htty.
  - intros -> Htty. cbv zeta. unfold bind, gets, stdin_read. rewrite Htty. split.
    + intros Hws. apply strip_nil in Hws.
      rewrite bool_decide_eq_true_2 by exact Hws.
      unfold raise. now rewrite Htty.
    + intros Hws. rewrite bool_decide_eq_false_2.
      * unfold ret. now rewrite Htty.
      * rewrite strip_nil. congruence.
Qed.
End ReadText.

(** C10 on [--text] with an empty and a blank value, and on blank and
    non-blank piped input. *)
Lemma read_text_flag_or_stdin_witness :
  read_text (Scenario.cli_with_text []) (Scenario.piped (lit "piped"))
  = (Scenario.piped (lit "piped"), Return [])
  /\ read_text (Scenario.cli_with_text (lit "  ")) (Scenario.piped (lit "piped"))
     = (Scenario.piped (lit "piped"), Return (lit "  "))
  /\ read_text Scenario.cli_stdin (Scenario.piped (lit "  " ++ [10%N]))
     = (Scenario.piped [], Raise (SystemExit (lit "No input text provided via stdin.")))
  /\ read_text Scenario.cli_stdin (Scenario.piped (lit " hi "))
     = (Scenario.piped [], Return (lit " hi ")).
Proof.
  split; [|split; [|split]].
  - apply (proj1 (read_text_flag_or_stdin (Scenario.cli_with_text []) _)).
    reflexivity.
  - apply (proj1 (read_text_flag_or_stdin (Scenario.cli_with_text (lit "  ")) _)).
    reflexivity.
  - apply (proj2 (proj2 (read_text_flag_or_stdin Scenario.cli_stdin
                           (Scenario.piped (lit "  " ++ [10%N])))));
      reflexivity.
  - apply (proj2 (proj2 (read_text_flag_or_stdin Scenario.cli_stdin
                           (Scenario.piped (lit " hi ")))));
      reflexivity.
Defined.

(** C9: for supported codes the prompt is the template with the two
    language names and the text put in, and building it cannot fail; for
    [en], [ja] and ["Hello"] it is the sentence of the specification. *)
Theorem build_prompt_substitutes (src tgt text : str) :
  (src ∈ SUPPORTED_LANGS -> tgt ∈ SUPPORTED_LANGS ->
   exists src_name tgt_name,
     LANG_NAME_MAP !! src = Some src_name
     /\ LANG_NAME_MAP !! tgt = Some tgt_name
     /\ build_prompt src tgt text
        = Return (lit "Translate the following " ++ src_name ++ lit " text into "
                    ++ tgt_name ++ lit "." ++ [10; 10]%N ++ text))
  /\ build_prompt (lit "en") (lit "ja") (lit "Hello")
     = Return (lit "Translate the following English text into Japanese."
                 ++ [10; 10]%N ++ lit "Hello").
Proof.
  split; [|vm_compute; reflexivity].
  intros [-> | ->]%supported_langs_cases [-> | ->]%supported_langs_cases.
  - exists (lit "Japanese"), (lit "Japanese"). repeat split.
    rewrite <- (app_nil_r text) at 2. vm_compute. reflexivity.
  - exists (lit "Japanese"), (lit "English"). repeat split.
    rewrite <- (app_nil_r text) at 2. vm_compute. reflexivity.
  - exists (lit "English"), (lit "Japanese"). repeat split.
    rewrite <- (app_nil_r text) at 2. vm_compute. reflexivity.
  - exists (lit "English"), (lit "English"). repeat split.
    rewrite <- (app_nil_r text) at 2. vm_compute. reflexivity.
Qed.

(** C9 on the pair [(ja, en)] and a text with braces in it. *)
Lemma build_prompt_substitutes_witness :
  exists src_name tgt_name,
    LANG_NAME_MAP !! lit "ja" = Some src_name
    /\ LANG_NAME_MAP !! lit "en" = Some tgt_name
    /\ build_prompt (lit "ja") (lit "en") (lit "{src_lang}")
       = Return (lit "Translate the following " ++ src_name ++ lit " text into "
                   ++ tgt_name ++ lit "." ++ [10; 10]%N ++ lit "{src_lang}").
Proof.
  apply (proj1 (build_prompt_substitutes (lit "ja") (lit "en") (lit "{src_lang}")));
    vm_compute; reflexivity.
Defined.

Lemma other_lang_involution (code : str) :
  code ∈ SUPPORTED_LANGS ->
  other_lang code ∈ SUPPORTED_LANGS
  /\ other_lang code <> code
  /\ other_lang (other_lang code) = code.
Proof.
  intros [-> | ->]%supported_langs_cases; vm_compute; repeat split;
    try discriminate; apply supported_langs_cases; vm_compute; auto.
Qed.

Lemma first_supported_is_supported (items : list (gmap str pyval)) (lang : str) :
  first_supported items = Some lang -> lang ∈ SUPPORTED_LANGS.
Proof.
  induction items as [|item rest IH]; simpl; [discriminate|].
  destruct (item !! lit "lang") as [[code|x]|]; auto.
  case_bool_decide; auto. now intros [= ->].
Qed.

(** What the scan of [detect_lang] finds: the first item with a supported
    code, all items before it being unsupported; or nothing, when no item
    has a supported code. *)
Lemma first_supported_first (items : list (gmap str pyval)) :
  match first_supported items with
  | Some lang =>
      exists before item after,
        items = before ++ item :: after
        /\ item !! lit "lang" = Some (VStr lang)
        /\ lang ∈ SUPPORTED_LANGS
        /\ Forall (fun it => forall code, it !! lit "lang" = Some (VStr code) ->
                                          code ∉ SUPPORTED_LANGS) before
  | None =>
      Forall (fun it => forall code, it !! lit "lang" = Some (VStr code) ->
                                     code ∉ SUPPORTED_LANGS) items
  end.
Proof.
  induction items as [|item rest IH]; simpl; [constructor|].
  destruct (item !! lit "lang") as [[code|x]|] eqn:Hlang.
  - case_bool_decide as Hin.
    + exists [], item, rest. repeat split; auto.
    + destruct (first_supported rest) as [lang|].
      * destruct IH as (before & it & after & -> & Hit & Hsup & Hbefore).
        exists (item :: before), it, after. repeat split; auto.
        constructor; [|exact Hbefore]. intros c Hc.
        rewrite Hlang in Hc. now injection Hc as <-.
      * constructor; [|exact IH]. intros c Hc.
        rewrite Hlang in Hc. now injection Hc as <-.
  - destruct (first_supported rest) as [lang|].
    + destruct IH as (before & it & after & -> & Hit & Hsup & Hbefore).
      exists (item :: before), it, after. repeat split; auto.
      constructor; [|exact Hbefore]. intros c Hc. rewrite Hlang in Hc. discriminate.
    + constructor; [|exact IH]. intros c Hc. rewrite Hlang in Hc. discriminate.
  - destruct (first_supported rest) as [lang|].
    + destruct IH as (before & it & after & -> & Hit & Hsup & Hbefore).
      exists (item :: before), it, after. repeat split; auto.
      constructor; [|exact Hbefore]. intros c Hc. rewrite Hlang in Hc. discriminate.
    + constructor; [|exact IH]. intros c Hc. rewrite Hlang in Hc. discriminate.
Qed.

Section Resolve.
Variable unicode_lower_at : str -> nat -> list N.
Variable detect : str -> Z -> str -> detect_result.
Context {Sampler : Type}.
Local Abbreviation normalize_lang := (CatTranslate.normalize_lang unicode_lower_at).
Local Abbreviation resolve_languages :=
  (CatTranslate.resolve_languages unicode_lower_at detect).

Lemma normalize_lang_supported (value : option str) (code : str) :
  normalize_lang value = Return (Some code) -> code ∈ SUPPORTED_LANGS.
Proof.
  destruct value as [v|]; [|discriminate].
  rewrite normalize_lang_key.
  destruct (LANG_CODE_MAP !! _) as [c|] eqn:Hc; [|discriminate].
  intros [= <-]. apply supported_langs_cases. eapply lang_code_map_values, Hc.
Qed.

Lemma normalize_lang_en : normalize_lang (Some (lit "en")) = Return (Some (lit "en")).
Proof.
  apply (normalize_lang_spelling unicode_lower_at [] (lit "en") []); reflexivity.
Qed.

Lemma cli_log_log (w : world Sampler) (es es' : list (event Sampler)) :
  log (log w es) es' = log w (es ++ es').
Proof. unfold log. simpl. now rewrite app_assoc. Qed.

(** The four branches of [resolve_languages], by what normalization made
    of the two declared tokens. *)
Lemma resolve_languages_branches (args : Namespace) (text : str) (w : world Sampler) :
  resolve_languages args text w =
    match normalize_lang (input_lang args) with
    | Raise e => (w, Raise e)
    | Return i =>
        match normalize_lang (output_lang args) with
        | Raise e => (w, Raise e)
        | Return o =>
            match i, o with
            | None, None =>
                let results_iter :=
                  match detect text 3 (lit "auto") with
                  | OneResult d => [d]
                  | ManyResults l => l
                  end in
                match first_supported results_iter with
                | Some lang =>
                    (log w [EvDetect text 3 (lit "auto");
                            EvStderr (lit "[INFO] Detected " ++ lang ++ lit " -> "
                                        ++ other_lang lang ++ [10%N])],
                     Return (lang, other_lang lang))
                | None =>
                    (log w [EvDetect text 3 (lit "auto")],
                     Raise (SystemExit
                              (lit "Could not detect language as English or Japanese.")))
                end
            | None, Some o => (w, Return (other_lang o, o))
            | Some i, None => (w, Return (i, other_lang i))
            | Some i, Some o =>
                if bool_decide (i ∉ SUPPORTED_LANGS) || bool_decide (o ∉ SUPPORTED_LANGS)
                then (w, Raise (SystemExit (lit "Only English and Japanese are supported.")))
                else if bool_decide (i = o)
                then (w, Raise (SystemExit
                                  (lit "Input and output languages must be different.")))
                else (w, Return (i, o))
            end
        end
    end.
Proof.
  unfold CatTranslate.resolve_languages, bind, lift.
  destruct (normalize_lang (input_lang args)) as [[i|]|e];
    destruct (normalize_lang (output_lang args)) as [[o|]|e']; try reflexivity.
  - destruct (_ || _); [reflexivity|]. destruct (bool_decide (i = o)); reflexivity.
  - unfold detect_lang, bind, emit, modify. cbv zeta.
    destruct (first_supported _) as [lang|]; [|reflexivity].
    unfold ret. now rewrite cli_log_log.
Qed.

(** C1: whatever pair the resolver returns, declared, inferred or
    detected, has two different members, both supported; and two tokens
    that normalize to one code make it fail. *)
Theorem resolve_languages_pair_valid (args : Namespace) (text : str) (w : world Sampler) :
  (forall w' src tgt,
     resolve_languages args text w = (w', Return (src, tgt)) ->
     src <> tgt /\ src ∈ SUPPORTED_LANGS /\ tgt ∈ SUPPORTED_LANGS)
  /\ (forall code,
        normalize_lang (input_lang args) = Return (Some code) ->
        normalize_lang (output_lang args) = Return (Some code) ->
        resolve_languages args text w
        = (w, Raise (SystemExit (lit "Input and output languages must be different.")))).
Proof.
  rewrite resolve_languages_branches. split.
  - intros w' src tgt.
    destruct (normalize_lang (input_lang args)) as [[i|]|e] eqn:Hi; [| |discriminate];
      (destruct (normalize_lang (output_lang args)) as [[o|]|e'] eqn:Ho;
       [| |discriminate]).
    + apply normalize_lang_supported in Hi, Ho.
      rewrite !bool_decide_eq_false_2 by (intros Hn; now apply Hn). simpl.
      case_bool_decide as Hio; [discriminate|].
      intros [= <- <- <-]. auto.
    + apply normalize_lang_supported in Hi.
      intros [= <- <- <-]. destruct (other_lang_involution i Hi) as (? & ? & ?). auto.
    + apply normalize_lang_supported in Ho.
      intros [= <- <- <-]. destruct (other_lang_involution o Ho) as (? & ? & ?). auto.
    + cbv zeta. destruct (first_supported _) as [lang|] eqn:Hf; [|discriminate].
      apply first_supported_is_supported in Hf.
      intros [= <- <- <-]. destruct (other_lang_involution lang Hf) as (? & ? & ?). auto.
  - intros code Hi Ho. rewrite Hi, Ho.
    apply normalize_lang_supported in Hi.
    rewrite !bool_decide_eq_false_2 by (intros Hn; now apply Hn). simpl.
    now rewrite bool_decide_eq_true_2.
Qed.

(** C2: with neither side declared the detector is asked for three
    candidates, the first candidate with a supported code becomes the
    source and the other supported code the target; with no supported
    candidate resolution fails with the detection error.  Candidates
    [fr], [en], [ja] give [(en, ja)]. *)
Theorem resolve_languages_detected (args : Namespace) (text : str) (w : world Sampler) :
  input_lang args = None -> output_lang args = None ->
  let results_iter :=
    match detect text 3 (lit "auto") with
    | OneResult d => [d]
    | ManyResults l => l
    end in
  let unsupported (it : gmap str pyval) :=
    forall code, it !! lit "lang" = Some (VStr code) -> code ∉ SUPPORTED_LANGS in
  (forall before item after lang,
     results_iter = before ++ item :: after ->
     Forall unsupported before ->
     item !! lit "lang" = Some (VStr lang) -> lang ∈ SUPPORTED_LANGS ->
     resolve_languages args text w
     = (log w [EvDetect text 3 (lit "auto");
               EvStderr (lit "[INFO] Detected " ++ lang ++ lit " -> "
                           ++ other_lang lang ++ [10%N])],
        Return (lang, other_lang lang)))
  /\ (Forall unsupported results_iter ->
      resolve_languages args text w
      = (log w [EvDetect text 3 (lit "auto")],
         Raise (SystemExit (lit "Could not detect language as English or Japanese."))))
  /\ (forall fr en ja,
        results_iter = [fr; en; ja] ->
        fr !! lit "lang" = Some (VStr (lit "fr")) ->
        en !! lit "lang" = Some (VStr (lit "en")) ->
        ja !! lit "lang" = Some (VStr (lit "ja")) ->
        resolve_languages args text w
        = (log w [EvDetect text 3 (lit "auto");
                  EvStderr (lit "[INFO] Detected en -> ja" ++ [10%N])],
           Return (lit "en", lit "ja"))).
Proof.
  intros Hi Ho results_iter unsupported.
  rewrite resolve_languages_branches, Hi, Ho. cbn [CatTranslate.normalize_lang].
  cbv zeta. fold results_iter.
  assert (Hscan : forall before item after lang,
             results_iter = before ++ item :: after ->
             Forall unsupported before ->
             item !! lit "lang" = Some (VStr lang) -> lang ∈ SUPPORTED_LANGS ->
             first_supported results_iter = Some lang).
  { intros before item after lang -> Hbefore Hitem Hlang.
    induction Hbefore as [|it before Hit _ IH]; simpl.
    - rewrite Hitem. now rewrite bool_decide_eq_true_2.
    - destruct (it !! lit "lang") as [[code|x]|] eqn:Hc; auto.
      rewrite bool_decide_eq_false_2 by (now apply Hit). exact IH. }
  split; [|split].
  - intros before item after lang Heq Hbefore Hitem Hlang.
    now rewrite (Hscan _ _ _ _ Heq Hbefore Hitem Hlang).
  - intros Hall.
    assert (Hnone : first_supported results_iter = None).
    { clear Hscan. induction Hall as [|it rest Hit _ IH]; simpl; [reflexivity|].
      destruct (it !! lit "lang") as [[code|x]|] eqn:Hc; auto.
      rewrite bool_decide_eq_false_2 by (now apply Hit). exact IH. }
    now rewrite Hnone.
  - intros fr en ja Heq Hfr Hen Hja.
    rewrite (Hscan [fr] en [ja] (lit "en")); [reflexivity|exact Heq| |exact Hen|].
    + constructor; [|constructor]. intros code Hc. rewrite Hfr in Hc.
      injection Hc as <-. rewrite supported_langs_cases. intros [H|H]; discriminate H.
    + apply supported_langs_cases. auto.
Qed.

(** C4: with one side declared the other side is its complement and the
    world is left as it was, so the detector is not called; [en] alone
    gives [(ja, en)] as a target and [(en, ja)] as a source; on the
    supported codes the complement is defined, never the code itself, and
    undoes itself. *)
Theorem resolve_languages_one_sided (args : Namespace) (text : str) (w : world Sampler) :
  (forall code,
     input_lang args = None ->
     normalize_lang (output_lang args) = Return (Some code) ->
     resolve_languages args text w = (w, Return (other_lang code, code)))
  /\ (forall code,
        normalize_lang (input_lang args) = Return (Some code) ->
        output_lang args = None ->
        resolve_languages args text w = (w, Return (code, other_lang code)))
  /\ (input_lang args = None -> output_lang args = Some (lit "en") ->
        resolve_languages args text w = (w, Return (lit "ja", lit "en")))
  /\ (input_lang args = Some (lit "en") -> output_lang args = None ->
        resolve_languages args text w = (w, Return (lit "en", lit "ja")))
  /\ (forall code,
        code ∈ SUPPORTED_LANGS ->
        other_lang code ∈ SUPPORTED_LANGS
        /\ other_lang code <> code
        /\ other_lang (other_lang code) = code).
Proof.
  rewrite resolve_languages_branches. repeat apply conj.
  - intros code -> ->. reflexivity.
  - intros code -> ->. reflexivity.
  - intros -> ->. now rewrite normalize_lang_en.
  - intros -> ->. now rewrite normalize_lang_en.
  - apply other_lang_involution.
Qed.
End Resolve.

(** C1 on [--input-lang jp --output-lang English], and on
    [--input-lang en --output-lang "EN "]. *)
Lemma resolve_languages_pair_valid_witness :
  (resolve_languages Scenario.caseless_table Scenario.detect_fr_en_ja
     (Scenario.cli_with_langs (Some (lit "jp")) (Some (lit "English")))
     (lit "Hello") (Scenario.piped [])
   = (Scenario.piped [], Return (lit "ja", lit "en")))
  /\ (lit "ja" <> lit "en"
      /\ lit "ja" ∈ SUPPORTED_LANGS /\ lit "en" ∈ SUPPORTED_LANGS)
  /\ resolve_languages Scenario.caseless_table Scenario.detect_fr_en_ja
       (Scenario.cli_with_langs (Some (lit "en")) (Some (lit "EN ")))
       (lit "Hello") (Scenario.piped [])
     = (Scenario.piped [],
        Raise (SystemExit (lit "Input and output languages must be different."))).
Proof.
  split; [vm_compute; reflexivity|]. split.
  - apply (proj1 (resolve_languages_pair_valid
                    Scenario.caseless_table Scenario.detect_fr_en_ja
                    (Scenario.cli_with_langs (Some (lit "jp")) (Some (lit "English")))
                    (lit "Hello") (Scenario.piped []))
             (Scenario.piped []) (lit "ja") (lit "en")).
    vm_compute. reflexivity.
  - apply (proj2 (resolve_languages_pair_valid
                    Scenario.caseless_table Scenario.detect_fr_en_ja
                    (Scenario.cli_with_langs (Some (lit "en")) (Some (lit "EN ")))
                    (lit "Hello") (Scenario.piped []))
             (lit "en")); vm_compute; reflexivity.
Defined.

(** C2 with a detector that ranks [fr], [en], [ja], and with one that
    ranks [fr], [de], [es]. *)
Lemma resolve_languages_detected_witness :
  resolve_languages Scenario.caseless_table Scenario.detect_fr_en_ja
    Scenario.cli_defaults (lit "Hello") (Scenario.piped [])
  = (log (Scenario.piped [])
       [EvDetect (lit "Hello") 3 (lit "auto");
        EvStderr (lit "[INFO] Detected en -> ja" ++ [10%N])],
     Return (lit "en", lit "ja"))
  /\ resolve_languages Scenario.caseless_table Scenario.detect_fr_de_es
       Scenario.cli_defaults (lit "Hello") (Scenario.piped [])
     = (log (Scenario.piped []) [EvDetect (lit "Hello") 3 (lit "auto")],
        Raise (SystemExit (lit "Could not detect language as English or Japanese."))).
Proof.
  split.
  - apply (proj2 (proj2 (resolve_languages_detected
                           Scenario.caseless_table Scenario.detect_fr_en_ja
                           Scenario.cli_defaults (lit "Hello") (Scenario.piped [])
                           eq_refl eq_refl))
             (Scenario.candidate "fr" Scenario.float_half)
             (Scenario.candidate "en" Scenario.float_quarter)
             (Scenario.candidate "ja" Scenario.float_quarter));
      vm_compute; reflexivity.
  - apply (proj1 (proj2 (resolve_languages_detected
                           Scenario.caseless_table Scenario.detect_fr_de_es
                           Scenario.cli_defaults (lit "Hello") (Scenario.piped [])
                           eq_refl eq_refl))).
    repeat constructor; intros code Hc; vm_compute in Hc; injection Hc as <-;
      rewrite supported_langs_cases; intros [H|H]; discriminate H.
Defined.

(** C4 on [--output-lang en] alone and on [--input-lang en] alone, with a
    detector at hand that is not asked. *)
Lemma resolve_languages_one_sided_witness :
  resolve_languages Scenario.caseless_table Scenario.detect_fr_de_es
    (Scenario.cli_with_langs None (Some (lit "en"))) (lit "Hello") (Scenario.piped [])
  = (Scenario.piped [], Return (lit "ja", lit "en"))
  /\ resolve_languages Scenario.caseless_table Scenario.detect_fr_de_es
       (Scenario.cli_with_langs (Some (lit "en")) None) (lit "Hello") (Scenario.piped [])
     = (Scenario.piped [], Return (lit "en", lit "ja"))
  /\ resolve_languages Scenario.caseless_table Scenario.detect_fr_de_es
       (Scenario.cli_with_langs (Some (lit " JP")) None) (lit "Hello") (Scenario.piped [])
     = (Scenario.piped [], Return (lit "ja", other_lang (lit "ja"))).
Proof.
  split; [|split].
  - apply (proj1 (proj2 (proj2 (resolve_languages_one_sided
             Scenario.caseless_table Scenario.detect_fr_de_es
             (Scenario.cli_with_langs None (Some (lit "en")))
             (lit "Hello") (Scenario.piped []))))); reflexivity.
  - apply (proj1 (proj2 (proj2 (proj2 (resolve_languages_one_sided
             Scenario.caseless_table Scenario.detect_fr_de_es
             (Scenario.cli_with_langs (Some (lit "en")) None)
             (lit "Hello") (Scenario.piped [])))))); reflexivity.
  - apply (proj1 (proj2 (resolve_languages_one_sided
             Scenario.caseless_table Scenario.detect_fr_de_es
             (Scenario.cli_with_langs (Some (lit " JP")) None)
             (lit "Hello") (Scenario.piped [])))); vm_compute; reflexivity.
Defined.

Lemma float_positive_truth (x : spec_float) :
  float_truth x && SFltb float_zero x = SFltb float_zero x.
Proof. destruct x as [[|]|[|]| |[|] m e]; reflexivity. Qed.

Lemma int_positive_truth (n : Z) : int_truth n && (0 <? n)%Z = (0 <? n)%Z.
Proof. unfold int_truth. destruct (Z.eqb_spec n 0); subst; reflexivity. Qed.

(** When [run_mlx] builds a sampler, in terms of the three parameters. *)
Lemma wants_sampler_iff (args : Namespace) :
  wants_sampler args = true <->
    SFltb float_zero (temperature args) = true
    \/ (SFeqb (top_p args) float_zero = false /\ SFltb (top_p args) float_one = true)
    \/ (0 < top_k args)%Z.
Proof.
  unfold wants_sampler. rewrite float_positive_truth, int_positive_truth.
  rewrite !orb_true_iff, andb_true_iff, Z.ltb_lt. unfold float_truth.
  rewrite negb_true_iff. tauto.
Qed.

Lemma float_positive_nonzero (x : spec_float) :
  SFltb float_zero x = true -> SFeqb x float_zero = false.
Proof. destruct x as [[|]|[|]| |[|] m e]; (discriminate || reflexivity). Qed.

Lemma float_zero_of_bounds (x : spec_float) :
  SFleb float_zero x = true -> SFltb float_zero x = false ->
  SFeqb x float_zero = true.
Proof. destruct x as [[|]|[|]| |[|] m e]; (discriminate || reflexivity). Qed.

Lemma float_eq_zero_not_pos (x : spec_float) :
  SFeqb x float_zero = true -> SFltb float_zero x = false.
Proof. destruct x as [[|]|[|]| |[|] m e]; (discriminate || reflexivity). Qed.

Lemma float_le_not_lt (x y : spec_float) :
  SFleb x y = true -> SFltb x y = false -> SFeqb x y = true.
Proof.
  unfold SFleb, SFltb, SFeqb. destruct (SFcompare x y) as [[| |]|]; congruence.
Qed.

Lemma float_eq_not_lt (x y : spec_float) : SFeqb x y = true -> SFltb x y = false.
Proof.
  unfold SFltb, SFeqb. destruct (SFcompare x y) as [[| |]|]; congruence.
Qed.

Section Invoke.
Context {Model Tokenizer Sampler : Type}.
Variable load : str -> option bool -> Model * Tokenizer.
Variable has_apply_chat_template : Tokenizer -> bool.
Variable apply_chat_template : Tokenizer -> list (gmap str str) -> bool -> bool -> str.
Variable make_sampler : spec_float -> spec_float -> Z -> Sampler.
Variable generate : Model -> Tokenizer -> str -> gen_kwargs Sampler -> str.
Local Abbreviation run_mlx :=
  (CatTranslate.run_mlx load has_apply_chat_template apply_chat_template
     make_sampler generate).

(** What [run_mlx] does about the sampler for all values of the three
    parameters, whether in their ranges or not: each comparison is guarded
    by the truth value of the parameter itself. *)
Lemma run_mlx_sampler (prompt : str) (args : Namespace) (w : world Sampler) :
  let trust := if trust_remote_code args then Some true else None in
  let mdl := (load (path_str (model args)) trust).1 in
  let tokenizer := (load (path_str (model args)) trust).2 in
  let messages : list (gmap str str) :=
    [ {[ lit "role" := lit "user"; lit "content" := prompt ]} ] in
  let templated := negb (no_chat_template args) && has_apply_chat_template tokenizer in
  let prompt_text :=
    if templated then apply_chat_template tokenizer messages true false else prompt in
  let before :=
    EvLoad (path_str (model args)) trust
      :: (if templated then [EvApplyChatTemplate messages] else []) in
  let sampling :=
    SFltb float_zero (temperature args) = true
    \/ (SFeqb (top_p args) float_zero = false /\ SFltb (top_p args) float_one = true)
    \/ (0 < top_k args)%Z in
  let built := make_sampler (temperature args) (top_p args) (top_k args) in
  let with_sampler := {| max_tokens := max_new_tokens args; sampler := Some built |} in
  let greedy := {| max_tokens := max_new_tokens args; sampler := None |} in
  (sampling ->
     run_mlx prompt args w
     = (log w (before ++ [EvMakeSampler (temperature args) (top_p args) (top_k args);
                          EvGenerate prompt_text with_sampler]),
        Return (generate mdl tokenizer prompt_text with_sampler)))
  /\ (~ sampling ->
        run_mlx prompt args w
        = (log w (before ++ [EvGenerate prompt_text greedy]),
           Return (generate mdl tokenizer prompt_text greedy)))
  /\ (SFeqb (top_p args) float_zero = false ->
        sampling <->
          SFltb float_zero (temperature args) = true
          \/ SFltb (top_p args) float_one = true
          \/ (0 < top_k args)%Z).
Proof.
  cbv zeta. unfold CatTranslate.run_mlx.
  destruct (load _ _) as [mdl tokenizer]. cbn [fst snd].
  split; [|split].
  - intros Hs%wants_sampler_iff. rewrite Hs. unfold bind, emit, modify, ret.
    destruct (negb _ && _); rewrite !cli_log_log; reflexivity.
  - intros Hs. rewrite <- wants_sampler_iff in Hs.
    apply not_true_is_false in Hs. rewrite Hs. unfold bind, emit, modify, ret.
    destruct (negb _ && _); rewrite !cli_log_log; reflexivity.
  - intros Hp. rewrite Hp. tauto.
Qed.
(** C3: for generation parameters in their ranges (temperature not
    negative, top-p above zero and at most one, top-k not negative)
    [run_mlx] builds a sampler, and hands it to [generate], if and only if
    the temperature is above zero or top-p is below one or top-k is above
    zero; no sampler is built, and [generate] is called without one, when
    the temperature is zero, top-p is one and top-k is zero, and in no
    other case. *)
Theorem run_mlx_sampler_in_range (prompt : str) (args : Namespace) (w : world Sampler) :
  SFleb float_zero (temperature args) = true ->
  SFltb float_zero (top_p args) = true ->
  SFleb (top_p args) float_one = true ->
  (0 <= top_k args)%Z ->
  let trust := if trust_remote_code args then Some true else None in
  let mdl := (load (path_str (model args)) trust).1 in
  let tokenizer := (load (path_str (model args)) trust).2 in
  let messages : list (gmap str str) :=
    [ {[ lit "role" := lit "user"; lit "content" := prompt ]} ] in
  let templated := negb (no_chat_template args) && has_apply_chat_template tokenizer in
  let prompt_text :=
    if templated then apply_chat_template tokenizer messages true false else prompt in
  let before :=
    EvLoad (path_str (model args)) trust
      :: (if templated then [EvApplyChatTemplate messages] else []) in
  let sampling :=
    SFltb float_zero (temperature args) = true
    \/ SFltb (top_p args) float_one = true
    \/ (0 < top_k args)%Z in
  let built := make_sampler (temperature args) (top_p args) (top_k args) in
  let with_sampler := {| max_tokens := max_new_tokens args; sampler := Some built |} in
  let greedy := {| max_tokens := max_new_tokens args; sampler := None |} in
  (sampling ->
     run_mlx prompt args w
     = (log w (before ++ [EvMakeSampler (temperature args) (top_p args) (top_k args);
                          EvGenerate prompt_text with_sampler]),
        Return (generate mdl tokenizer prompt_text with_sampler)))
  /\ (~ sampling ->
        run_mlx prompt args w
        = (log w (before ++ [EvGenerate prompt_text greedy]),
           Return (generate mdl tokenizer prompt_text greedy)))
  /\ (~ sampling <->
        SFeqb (temperature args) float_zero = true
        /\ SFeqb (top_p args) float_one = true
        /\ top_k args = 0%Z).
Proof.
  intros Htemp Hpos Hone Hk. cbv zeta.
  assert (Hnz : SFeqb (top_p args) float_zero = false)
    by (now apply float_positive_nonzero).
  destruct (run_mlx_sampler prompt args w) as (Hbuilt & Hgreedy & Hsame).
  cbv zeta in Hbuilt, Hgreedy, Hsame. specialize (Hsame Hnz).
  split; [|split].
  - intros Hs. apply Hbuilt. now apply Hsame.
  - intros Hs. apply Hgreedy. now rewrite Hsame.
  - split.
    + intros Hs.
      assert (Ht : SFltb float_zero (temperature args) = false)
        by (apply not_true_is_false; tauto).
      assert (Hp : SFltb (top_p args) float_one = false)
        by (apply not_true_is_false; tauto).
      repeat split.
      * now apply float_zero_of_bounds.
      * now apply float_le_not_lt.
      * lia.
    + intros (Ht & Hp & Hk0) [Hs|[Hs|Hs]].
      * apply float_eq_zero_not_pos in Ht. congruence.
      * apply float_eq_not_lt in Hp. congruence.
      * lia.
Qed.
End Invoke.

(** C3 on [--temperature 0.5] and on the defaults. *)
Lemma run_mlx_sampler_in_range_witness :
  run_mlx Scenario.load Scenario.has_apply_chat_template
    Scenario.apply_chat_template Scenario.make_sampler Scenario.generate
    (lit "prompt") (Scenario.cli_with_sampling Scenario.float_half float_one 0)
    (Scenario.piped [])
  = (log (Scenario.piped [])
       [EvLoad (lit "output/mlx/cyberagent/CAT-Translate-0.8b/q4") None;
        EvMakeSampler Scenario.float_half float_one 0;
        EvGenerate (lit "prompt")
          {| max_tokens := 512;
             sampler := Some (Scenario.float_half, float_one, 0%Z) |}],
     Return (lit "prompt"))
  /\ run_mlx Scenario.load Scenario.has_apply_chat_template
       Scenario.apply_chat_template Scenario.make_sampler Scenario.generate
       (lit "prompt") Scenario.cli_defaults (Scenario.piped [])
     = (log (Scenario.piped [])
          [EvLoad (lit "output/mlx/cyberagent/CAT-Translate-0.8b/q4") None;
           EvGenerate (lit "prompt") {| max_tokens := 512; sampler := None |}],
        Return (lit "prompt")).
Proof.
  split.
  - apply (proj1 (run_mlx_sampler_in_range Scenario.load
                    Scenario.has_apply_chat_template Scenario.apply_chat_template
                    Scenario.make_sampler Scenario.generate (lit "prompt")
                    (Scenario.cli_with_sampling Scenario.float_half float_one 0)
                    (Scenario.piped [])
                    eq_refl eq_refl eq_refl ltac:(simpl; lia))).
    left. reflexivity.
  - apply (proj1 (proj2 (run_mlx_sampler_in_range Scenario.load
                           Scenario.has_apply_chat_template
                           Scenario.apply_chat_template Scenario.make_sampler
                           Scenario.generate (lit "prompt") Scenario.cli_defaults
                           (Scenario.piped [])
                           eq_refl eq_refl eq_refl ltac:(simpl; lia)))).
    vm_compute. intuition discriminate.
Defined.

End CatTranslateSpec.


(** ** The conversion driver *)

Module ToMlxSpec.
Import ToMlx.

Lemma supported_qbits_repr :
  repr_list str_of_int (sorted Z.ltb (elements SUPPORTED_QBITS)) = lit "[4, 8]".
Proof. vm_compute. reflexivity. Qed.

Lemma supported_qbits_cases (q : Z) : q ∈ SUPPORTED_QBITS <-> q = 4%Z \/ q = 8%Z.
Proof. unfold SUPPORTED_QBITS. set_solver. Qed.

Lemma commands_run_app (tr tr' : list event) :
  commands_run (tr ++ tr') = commands_run tr ++ commands_run tr'.
Proof.
  induction tr as [|[s|cmd] tr IH]; simpl; [reflexivity|exact IH|now rewrite IH].
Qed.

(** [for x in l1 + l2] is the loop over [l1], then the loop over [l2]
    unless the first raised. *)
Lemma for_each_app {W E A} (l1 l2 : list A) (body : A -> M W E unit) (w : W) :
  for_each (l1 ++ l2) body w = bind (for_each l1 body) (fun _ => for_each l2 body) w.
Proof.
  revert w. induction l1 as [|x l1 IH]; intros w; simpl; [reflexivity|].
  unfold bind. destruct (body x w) as [w' [[]|e]]; [|reflexivity].
  rewrite IH. reflexivity.
Qed.

Lemma for_each_map {W E A B} (g : A -> B) (l : list A) (body : B -> M W E unit) (w : W) :
  for_each (map g l) body w = for_each l (fun x => body (g x)) w.
Proof.
  revert w. induction l as [|x l IH]; intros w; simpl; [reflexivity|].
  unfold bind. destruct (body (g x) w) as [w' [[]|e]]; [apply IH|reflexivity].
Qed.

(** The nested loops of [main] visit the pairs in the order of the
    flattened list: every bit-width for the first model, then for the
    second, and so on. *)
Lemma for_each_nested {W E A B} (xs : list A) (ys : list B)
    (body : A -> B -> M W E unit) (w : W) :
  for_each xs (fun x => for_each ys (fun y => body x y)) w
  = for_each (flat_map (fun x => map (fun y => (x, y)) ys) xs)
      (fun xy => body xy.1 xy.2) w.
Proof.
  revert w. induction xs as [|x xs IH]; intros w; simpl; [reflexivity|].
  rewrite for_each_app. unfold bind. rewrite for_each_map. simpl.
  destruct (for_each ys _ w) as [w' [[]|e]]; [apply IH|reflexivity].
Qed.

Lemma invalid_qbits_nil (args : Namespace) :
  Forall (fun q => q ∈ SUPPORTED_QBITS) (qbits args) -> invalid_qbits args = [].
Proof.
  unfold invalid_qbits. induction 1 as [|q qs Hq _ IH]; [reflexivity|].
  rewrite filter_cons_False by (intros Hn; now apply Hn). exact IH.
Qed.

Lemma mkdir_parents_rev_existing (r : str) (rparts : list str) (m : gmap Path kind) :
  lookup_kind m (mkPath r (rev rparts)) = Some Dir ->
  mkdir_parents_rev r rparts m = (m, Return tt).
Proof.
  intros Hdir.
  destruct rparts as [|x rparts]; cbn [mkdir_parents_rev];
    unfold os_mkdir, is_dir; rewrite Hdir; now rewrite bool_decide_eq_true_2.
Qed.

(** [mkdir(parents=True, exist_ok=True)] on a directory that is there
    does nothing. *)
Lemma mkdir_parents_existing (p : Path) (w : world) :
  lookup_kind (fs w) p = Some Dir -> mkdir_parents p w = (w, Return tt).
Proof.
  intros Hdir. unfold mkdir_parents.
  rewrite mkdir_parents_rev_existing.
  - now destruct w.
  - rewrite rev_involutive. now destruct p.
Qed.

(** In a well-formed file system whatever exists has a directory above it. *)
Lemma parent_of_existing (m : gmap Path kind) (p : Path) :
  fs_wf m -> path_exists m p = true -> lookup_kind m (parent p) = Some Dir.
Proof.
  intros Hwf Hex. unfold path_exists in Hex. apply bool_decide_eq_true_1 in Hex.
  destruct Hex as [k Hk]. unfold lookup_kind in Hk.
  destruct (parts p) as [|x ps] eqn:Hparts.
  - unfold lookup_kind, parent. simpl. now rewrite Hparts.
  - exact (Hwf p k Hk).
Qed.

Section Driver.
Variable sys_executable : str.
Variable subprocess_run : list str -> gmap Path kind -> gmap Path kind * Z.
Local Abbreviation build_command := (ToMlx.build_command sys_executable).
Local Abbreviation command_of := (ToMlx.command_of sys_executable).
Local Abbreviation job := (ToMlx.job sys_executable subprocess_run).
Local Abbreviation main := (ToMlx.main sys_executable subprocess_run).

(** With valid bit-widths [main] is its two loops, flattened. *)
Lemma main_valid (args : Namespace) (w : world) :
  Forall (fun q => q ∈ SUPPORTED_QBITS) (qbits args) ->
  main args w
  = bind (for_each (flat_map (fun m => map (fun q => (m, q)) (qbits args))
                      (models_of args))
            (fun mq => job args mq.1 mq.2))
      (fun _ => ret 0%Z) w.
Proof.
  intros Hvalid. unfold ToMlx.main. rewrite (invalid_qbits_nil args Hvalid).
  unfold bind. now rewrite for_each_nested.
Qed.

(** A job that returns has run its command once; a job that raises has run
    it once or not at all. *)
Lemma job_commands (args : Namespace) (model : str) (qbits : Z) (w : world) :
  let r := job args model qbits w in
  (r.2 = Return tt ->
     commands_run (trace r.1) = commands_run (trace w) ++ [command_of args model qbits])
  /\ (commands_run (trace r.1) = commands_run (trace w)
      \/ commands_run (trace r.1)
         = commands_run (trace w) ++ [command_of args model qbits]).
Proof.
  cbv zeta. unfold ToMlx.job, bind, mkdir_parents, gets.
  destruct (mkdir_parents_rev _ _ (fs w)) as [m1 [[]|e]]; cbn [fst snd fs trace].
  - destruct (path_exists m1 _); cbn [fst snd raise].
    + split; [discriminate|now left].
    + unfold emit, modify, run_checked. cbn [fs trace log].
      destruct (subprocess_run _ _) as [m2 rc]. cbn [fs trace log].
      assert (Hrun : forall cmd s,
                 commands_run (((trace w ++ [EvStdout s]) ++ [EvRun cmd]))
                 = commands_run (trace w) ++ [cmd]).
      { intros cmd s. rewrite !commands_run_app. simpl. now rewrite app_nil_r. }
      destruct (rc =? 0)%Z; unfold log; cbn [fst snd fs trace]; rewrite Hrun;
        split; auto; discriminate.
  - split; [discriminate|now left].
Qed.

(** The commands a run of jobs leaves in the trace are those of the jobs,
    in order, up to the job that raised; all of them when none raised. *)
Lemma jobs_commands (args : Namespace) (jobs : list (str * Z)) (w : world) :
  let r := for_each jobs (fun mq => job args mq.1 mq.2) w in
  (exists n,
     commands_run (trace r.1)
     = commands_run (trace w)
         ++ map (fun mq => command_of args mq.1 mq.2) (take n jobs))
  /\ (r.2 = Return tt ->
        commands_run (trace r.1)
        = commands_run (trace w) ++ map (fun mq => command_of args mq.1 mq.2) jobs).
Proof.
  cbv zeta. revert w.
  induction jobs as [|[m q] jobs IH]; intros w; simpl.
  - split; [exists 0%nat|intros _]; now rewrite app_nil_r.
  - unfold bind. destruct (job_commands args m q w) as [Hok Hany].
    destruct (job args m q w) as [w1 [[]|e]]; cbn [fst snd] in *.
    + destruct (IH w1) as [[n Hn] Hall]. rewrite (Hok eq_refl) in Hn, Hall.
      split.
      * exists (S n). rewrite Hn, <- app_assoc. reflexivity.
      * intros Hret. rewrite (Hall Hret), <- app_assoc. reflexivity.
    + split; [|discriminate].
      destruct Hany as [Hnone|Hone].
      * exists 0%nat. now rewrite Hnone, app_nil_r.
      * exists 1%nat. rewrite Hone. now destruct jobs.
Qed.

(** C6: one unsupported bit-width makes [main] fail at once: the world is
    as it was, so no path was looked at, nothing was printed and no
    process was started; the message lists every unsupported value, in
    the order given, and the supported ones.  For [[4, 16]] it lists
    [[16]]. *)
Theorem main_rejects_invalid_qbits (args : Namespace) (w : world) (q : Z) :
  In q (qbits args) -> q ∉ SUPPORTED_QBITS ->
  main args w
  = (w, Raise (SystemExit
                 (lit "Unsupported qbits: "
                    ++ repr_list str_of_int
                         (filter (fun x => x <> 4%Z /\ x <> 8%Z) (qbits args))
                    ++ lit ". Supported values: [4, 8]")))
  /\ (qbits args = [4; 16]%Z ->
      main args w
      = (w, Raise (SystemExit
                     (lit "Unsupported qbits: [16]. Supported values: [4, 8]")))).
Proof.
  intros Hin Hbad.
  assert (Hfilter : invalid_qbits args
                    = filter (fun x => x <> 4%Z /\ x <> 8%Z) (qbits args)).
  { unfold invalid_qbits. apply list_filter_iff. intros x.
    rewrite supported_qbits_cases. tauto. }
  assert (Hne : invalid_qbits args <> []).
  { unfold invalid_qbits. intros Hnil.
    assert (Hq : q ∈ filter (fun q => q ∉ SUPPORTED_QBITS) (qbits args))
      by (apply list_elem_of_filter; split; [exact Hbad|now apply list_elem_of_In]).
    rewrite Hnil in Hq. now apply elem_of_nil in Hq. }
  assert (Hmain : main args w
                  = (w, Raise (SystemExit
                       (lit "Unsupported qbits: "
                          ++ repr_list str_of_int (invalid_qbits args)
                          ++ lit ". Supported values: [4, 8]")))).
  { unfold ToMlx.main. rewrite supported_qbits_repr.
    destruct (invalid_qbits args); [congruence|reflexivity]. }
  split.
  - now rewrite Hmain, Hfilter.
  - intros Hqs. rewrite Hmain, Hfilter, Hqs. reflexivity.
Qed.

(** C7: with valid bit-widths the commands [main] runs are those of the
    pairs (model, bit-width), all bit-widths of a model before the next
    model, each with the destination [output_dir / model / "q<bits>"];
    one command per pair when [main] returns, and the first so many of them
    when a job stops the run. *)
Theorem main_jobs_in_order (args : Namespace) (w : world) :
  Forall (fun q => q ∈ SUPPORTED_QBITS) (qbits args) ->
  let jobs :=
    flat_map (fun m => map (fun q => (m, q)) (qbits args)) (models_of args) in
  let command (mq : str * Z) :=
    build_command mq.1
      (truediv (truediv (output_dir args) mq.1) (lit "q" ++ str_of_int mq.2))
      mq.2 (q_group_size args) (dtype args) (trust_remote_code args) in
  (forall w', main args w = (w', Return 0%Z) ->
     commands_run (trace w') = commands_run (trace w) ++ map command jobs)
  /\ (exists n,
        commands_run (trace (main args w).1)
        = commands_run (trace w) ++ map command (take n jobs)).
Proof.
  intros Hvalid jobs command. rewrite (main_valid args w Hvalid). fold jobs.
  destruct (jobs_commands args jobs w) as [Hprefix Hall].
  unfold bind. destruct (for_each jobs _ w) as [w1 [[]|e]]; cbn [fst snd] in *.
  - split; [|exact Hprefix]. intros w' [= <-]. now apply Hall.
  - split; [discriminate|exact Hprefix].
Qed.

(** C8: when the jobs before one have returned and the output path of
    that job is there, [main] stops with the error that names the path and
    leaves the world as that job found it: nothing removed, nothing
    written, no command run for it or for a later job. *)
Theorem main_refuses_existing_output
    (args : Namespace) (w w1 : world) (before after : list (str * Z))
    (model : str) (qbits : Z) :
  Forall (fun q => q ∈ SUPPORTED_QBITS) (ToMlx.qbits args) ->
  flat_map (fun m => map (fun q => (m, q)) (ToMlx.qbits args)) (models_of args)
  = before ++ (model, qbits) :: after ->
  for_each before (fun mq => job args mq.1 mq.2) w = (w1, Return tt) ->
  fs_wf (fs w1) ->
  path_exists (fs w1) (out_dir_of args model qbits) = true ->
  main args w
  = (w1, Raise (SystemExit
                  (lit "Output path already exists: "
                     ++ path_str (truediv (truediv (output_dir args) model)
                                    (lit "q" ++ str_of_int qbits))
                     ++ lit ". "
                     ++ lit "Please delete/move it or choose another output directory.")))
  /\ commands_run (trace w1)
     = commands_run (trace w) ++ map (fun mq => command_of args mq.1 mq.2) before.
Proof.
  intros Hvalid Hjobs Hbefore Hwf Hthere. split.
  - rewrite (main_valid args w Hvalid), Hjobs. unfold bind at 1.
    rewrite for_each_app. unfold bind at 1. rewrite Hbefore.
    cbn [for_each]. unfold bind at 1. unfold ToMlx.job at 1. unfold bind at 1.
    fold (out_dir_of args model qbits).
    rewrite mkdir_parents_existing by (now apply parent_of_existing).
    unfold bind, gets. cbn [fst snd]. now rewrite Hthere.
  - pose proof (proj2 (jobs_commands args before w)) as Hall.
    cbv zeta in Hall. rewrite Hbefore in Hall. now apply Hall.
Qed.
End Driver.

(** C6 on [--qbits 4 16]. *)
Lemma main_rejects_invalid_qbits_witness :
  main (lit "python3") Scenario.convert_ok
    (Scenario.convert_args ["m1"]%string [4; 16]%Z) (Scenario.disk [])
  = (Scenario.disk [],
     Raise (SystemExit (lit "Unsupported qbits: [16]. Supported values: [4, 8]"))).
Proof.
  apply (proj2 (main_rejects_invalid_qbits (lit "python3") Scenario.convert_ok
                  (Scenario.convert_args ["m1"]%string [4; 16]%Z)
                  (Scenario.disk []) 16%Z
                  (or_intror (or_introl eq_refl))
                  ltac:(rewrite supported_qbits_cases; lia))).
  reflexivity.
Defined.

(** C7 on [--model m1 --model m2 --qbits 8 --output-dir out], on an empty
    disk: [out/m1/q8], then [out/m2/q8]. *)
Lemma main_jobs_in_order_witness :
  main (lit "python3") Scenario.convert_ok
    (Scenario.convert_args ["m1"; "m2"]%string [8]%Z) (Scenario.disk [])
  = ((main (lit "python3") Scenario.convert_ok
        (Scenario.convert_args ["m1"; "m2"]%string [8]%Z) (Scenario.disk [])).1,
     Return 0%Z)
  /\ commands_run
       (trace (main (lit "python3") Scenario.convert_ok
                 (Scenario.convert_args ["m1"; "m2"]%string [8]%Z)
                 (Scenario.disk [])).1)
     = [ Scenario.convert_command "m1" "out/m1/q8" "8";
         Scenario.convert_command "m2" "out/m2/q8" "8" ].
Proof.
  split; [vm_compute; reflexivity|].
  apply (proj1 (main_jobs_in_order (lit "python3") Scenario.convert_ok
                  (Scenario.convert_args ["m1"; "m2"]%string [8]%Z)
                  (Scenario.disk [])
                  ltac:(repeat constructor; rewrite supported_qbits_cases; lia))).
  vm_compute. reflexivity.
Defined.

(** C8 on [--model m1 --qbits 8 4] with [out/m1/q4] on the disk: the
    8-bit conversion runs, the 4-bit one is refused. *)
Lemma main_refuses_existing_output_witness :
  main (lit "python3") Scenario.convert_ok
    (Scenario.convert_args ["m1"]%string [8; 4]%Z) Scenario.disk_with_q4
  = (Scenario.disk_with_q4_q8,
     Raise (SystemExit
              (lit "Output path already exists: out/m1/q4. "
                 ++ lit "Please delete/move it or choose another output directory.")))
  /\ commands_run (trace Scenario.disk_with_q4_q8)
     = [ Scenario.convert_command "m1" "out/m1/q8" "8" ].
Proof.
  apply (main_refuses_existing_output (lit "python3") Scenario.convert_ok
           (Scenario.convert_args ["m1"]%string [8; 4]%Z)
           Scenario.disk_with_q4 Scenario.disk_with_q4_q8
           [(lit "m1", 8%Z)] [] (lit "m1") 4%Z).
  - repeat constructor; rewrite supported_qbits_cases; lia.
  - reflexivity.
  - vm_compute. reflexivity.
  - apply (bool_decide_unpack _). vm_compute. exact I.
  - vm_compute. reflexivity.
Defined.

End ToMlxSpec.


(** ** More on the translation CLI *)

Module CatTranslateMore.
Import CatTranslate PyFacts CatTranslateSpec.

Lemma lang_name_map_lookup (code : str) :
  LANG_NAME_MAP !! code =
    if bool_decide (code = lit "ja") then Some (lit "Japanese")
    else if bool_decide (code = lit "en") then Some (lit "English")
    else None.
Proof.
  repeat case_bool_decide; subst; try reflexivity.
  apply not_elem_of_list_to_map_1. simpl.
  rewrite !elem_of_cons, elem_of_nil. tauto.
Qed.

Lemma lower_nil (tbl : str -> nat -> list N) : lower tbl [] = [].
Proof. reflexivity. Qed.

Section Tokens.
Variable unicode_lower_at : str -> nat -> list N.
Local Abbreviation normalize_lang := (CatTranslate.normalize_lang unicode_lower_at).

Lemma normalize_lang_none (value : option str) :
  normalize_lang value = Return None -> value = None.
Proof.
  destruct value as [v|]; [|reflexivity].
  rewrite normalize_lang_key. destruct (LANG_CODE_MAP !! _); discriminate.
Qed.

Lemma normalize_lang_raise (value : option str) (e : exn) :
  normalize_lang value = Raise e ->
  exists v, value = Some v
            /\ LANG_CODE_MAP !! lower unicode_lower_at (strip v) = None
            /\ e = SystemExit (lit "Unsupported language '" ++ v
                                 ++ lit "'. Supported: ['en', 'ja']").
Proof.
  destruct value as [v|]; [|discriminate].
  rewrite normalize_lang_key.
  destruct (LANG_CODE_MAP !! _) eqn:Hk; [discriminate|].
  intros [= <-]. eauto.
Qed.

(** X1: what [normalize_lang] returns for a token is a supported code,
    and normalizing that code again returns it. *)
Theorem normalize_lang_idempotent (value : option str) (code : str) :
  normalize_lang value = Return (Some code) ->
  code ∈ SUPPORTED_LANGS /\ normalize_lang (Some code) = Return (Some code).
Proof.
  intros H. pose proof (normalize_lang_supported _ _ _ H) as Hs. split; [exact Hs|].
  apply supported_langs_cases in Hs as [-> | ->].
  - apply (normalize_lang_spelling unicode_lower_at [] (lit "ja") []); reflexivity.
  - apply (normalize_lang_spelling unicode_lower_at [] (lit "en") []); reflexivity.
Qed.

(** X2: an empty or blank token is not taken for an absent one: it is
    rejected as unsupported, quoted as given. *)
Theorem normalize_lang_blank (value : str) :
  forallb isspace value = true ->
  normalize_lang (Some value)
  = Raise (SystemExit (lit "Unsupported language '" ++ value
                         ++ lit "'. Supported: ['en', 'ja']")).
Proof.
  intros Hws. apply strip_nil in Hws.
  rewrite normalize_lang_key, Hws, lower_nil. reflexivity.
Qed.
End Tokens.

(** X1 on [" Japanese "]. *)
Lemma normalize_lang_idempotent_witness :
  normalize_lang Scenario.caseless_table (Some (lit " Japanese "))
  = Return (Some (lit "ja"))
  /\ lit "ja" ∈ SUPPORTED_LANGS
  /\ normalize_lang Scenario.caseless_table (Some (lit "ja")) = Return (Some (lit "ja")).
Proof.
  split; [vm_compute; reflexivity|].
  apply (normalize_lang_idempotent Scenario.caseless_table (Some (lit " Japanese "))).
  vm_compute. reflexivity.
Defined.

(** X2 on the empty token and on a tab. *)
Lemma normalize_lang_blank_witness :
  normalize_lang Scenario.caseless_table (Some [])
  = Raise (SystemExit (lit "Unsupported language ''. Supported: ['en', 'ja']"))
  /\ normalize_lang Scenario.caseless_table (Some [9%N])
     = Raise (SystemExit (lit "Unsupported language '" ++ [9%N]
                            ++ lit "'. Supported: ['en', 'ja']")).
Proof.
  split.
  - apply (normalize_lang_blank Scenario.caseless_table []). reflexivity.
  - apply (normalize_lang_blank Scenario.caseless_table [9%N]). reflexivity.
Defined.

Section Resolving.
Variable unicode_lower_at : str -> nat -> list N.
Variable detect : str -> Z -> str -> detect_result.
Context {Sampler : Type}.
Local Abbreviation normalize_lang := (CatTranslate.normalize_lang unicode_lower_at).
Local Abbreviation resolve_languages :=
  (CatTranslate.resolve_languages unicode_lower_at detect).

(** X3: the first unrecognised token decides the error: an unrecognised
    [--input-lang] is reported whatever [--output-lang] is, an unrecognised
    [--output-lang] is reported when the input side is absent or recognised;
    in both cases the world is left alone. *)
Theorem resolve_languages_first_bad_token
    (args : Namespace) (text : str) (w : world Sampler) :
  (forall a,
     input_lang args = Some a ->
     LANG_CODE_MAP !! lower unicode_lower_at (strip a) = None ->
     resolve_languages args text w
     = (w, Raise (SystemExit (lit "Unsupported language '" ++ a
                                ++ lit "'. Supported: ['en', 'ja']"))))
  /\ (forall i b,
        normalize_lang (input_lang args) = Return i ->
        output_lang args = Some b ->
        LANG_CODE_MAP !! lower unicode_lower_at (strip b) = None ->
        resolve_languages args text w
        = (w, Raise (SystemExit (lit "Unsupported language '" ++ b
                                   ++ lit "'. Supported: ['en', 'ja']")))).
Proof.
  rewrite resolve_languages_branches. split.
  - intros a -> Ha. now rewrite normalize_lang_key, Ha.
  - intros i b -> -> Hb. now rewrite normalize_lang_key, Hb.
Qed.

(** X4: as soon as one side is declared the resolver leaves the world as
    it is, whether it returns or fails: no detector call, nothing on the
    error stream. *)
Theorem resolve_languages_declared_world
    (args : Namespace) (text : str) (w : world Sampler) :
  input_lang args <> None \/ output_lang args <> None ->
  (resolve_languages args text w).1 = w.
Proof.
  intros Hdecl. rewrite resolve_languages_branches.
  destruct (normalize_lang (input_lang args)) as [[i|]|e] eqn:Hi;
    destruct (normalize_lang (output_lang args)) as [[o|]|e'] eqn:Ho;
    try reflexivity.
  - destruct (_ || _); [reflexivity|]. now destruct (bool_decide (i = o)).
  - apply normalize_lang_none in Hi, Ho. tauto.
Qed.

(** X5: two declared tokens that normalize to different codes are
    returned as the pair, source first, without looking at the text. *)
Theorem resolve_languages_declared_pair
    (args : Namespace) (text : str) (w : world Sampler) (i o : str) :
  normalize_lang (input_lang args) = Return (Some i) ->
  normalize_lang (output_lang args) = Return (Some o) ->
  i <> o ->
  resolve_languages args text w = (w, Return (i, o)).
Proof.
  intros Hi Ho Hne. rewrite resolve_languages_branches, Hi, Ho.
  apply normalize_lang_supported in Hi, Ho.
  rewrite !bool_decide_eq_false_2 by (intros Hn; now apply Hn). simpl.
  now rewrite bool_decide_eq_false_2.
Qed.

(** X6: the error "Only English and Japanese are supported." is never
    raised: whatever [normalize_lang] returns is a supported code, so the
    test that guards it cannot succeed. *)
Theorem resolve_languages_only_guard_dead
    (args : Namespace) (text : str) (w : world Sampler) :
  (resolve_languages args text w).2
  <> Raise (SystemExit (lit "Only English and Japanese are supported.")).
Proof.
  rewrite resolve_languages_branches.
  destruct (normalize_lang (input_lang args)) as [i|e] eqn:Hi.
  2:{ apply normalize_lang_raise in Hi as (v & _ & _ & ->). cbn [snd].
      discriminate. }
  destruct (normalize_lang (output_lang args)) as [o|e] eqn:Ho.
  2:{ apply normalize_lang_raise in Ho as (v & _ & _ & ->). cbn [snd].
      discriminate. }
  destruct i as [i|], o as [o|]; try discriminate.
  - apply normalize_lang_supported in Hi, Ho.
    rewrite !bool_decide_eq_false_2 by (intros Hn; now apply Hn). simpl.
    destruct (bool_decide (i = o)); discriminate.
  - cbv zeta. destruct (first_supported _); discriminate.
Qed.

(** X7: [detect_lang] asks the detector once, for three guesses of the
    model ["auto"]; what it returns is a supported code; a single result
    [dict] counts as a list of one. *)
Theorem detect_lang_once (text : str) (w : world Sampler) :
  (detect_lang detect text w).1 = log w [EvDetect text 3 (lit "auto")]
  /\ (forall lang,
        (detect_lang detect text w).2 = Return lang -> lang ∈ SUPPORTED_LANGS)
  /\ (forall d,
        detect text 3 (lit "auto") = OneResult d ->
        (detect_lang detect text w).2
        = match d !! lit "lang" with
          | Some (VStr lang) =>
              if bool_decide (lang ∈ SUPPORTED_LANGS) then Return lang
              else Raise (SystemExit
                            (lit "Could not detect language as English or Japanese."))
          | _ => Raise (SystemExit
                          (lit "Could not detect language as English or Japanese."))
          end).
Proof.
  unfold detect_lang, bind, emit, modify. cbv zeta. repeat apply conj.
  - destruct (first_supported _); reflexivity.
  - intros lang. destruct (first_supported _) as [l|] eqn:Hf; [|discriminate].
    intros [= <-]. eapply first_supported_is_supported, Hf.
  - intros d ->. simpl.
    destruct (d !! lit "lang") as [[lang|x]|]; try reflexivity.
    now case_bool_decide.
Qed.
End Resolving.

(** X3 on [--input-lang fr --output-lang de] and on
    [--input-lang en --output-lang de]. *)
Lemma resolve_languages_first_bad_token_witness :
  resolve_languages Scenario.caseless_table Scenario.detect_fr_en_ja
    (Scenario.cli_with_langs (Some (lit "fr")) (Some (lit "de")))
    (lit "Hello") (Scenario.piped [])
  = (Scenario.piped [],
     Raise (SystemExit (lit "Unsupported language 'fr'. Supported: ['en', 'ja']")))
  /\ resolve_languages Scenario.caseless_table Scenario.detect_fr_en_ja
       (Scenario.cli_with_langs (Some (lit "en")) (Some (lit "de")))
       (lit "Hello") (Scenario.piped [])
     = (Scenario.piped [],
        Raise (SystemExit (lit "Unsupported language 'de'. Supported: ['en', 'ja']"))).
Proof.
  split.
  - apply (proj1 (resolve_languages_first_bad_token
                    Scenario.caseless_table Scenario.detect_fr_en_ja
                    (Scenario.cli_with_langs (Some (lit "fr")) (Some (lit "de")))
                    (lit "Hello") (Scenario.piped [])) (lit "fr"));
      vm_compute; reflexivity.
  - apply (proj2 (resolve_languages_first_bad_token
                    Scenario.caseless_table Scenario.detect_fr_en_ja
                    (Scenario.cli_with_langs (Some (lit "en")) (Some (lit "de")))
                    (lit "Hello") (Scenario.piped []))
             (Some (lit "en")) (lit "de"));
      vm_compute; reflexivity.
Defined.

(** X4 on [--output-lang de], which fails, with a detector at hand. *)
Lemma resolve_languages_declared_world_witness :
  (resolve_languages Scenario.caseless_table Scenario.detect_fr_en_ja
     (Scenario.cli_with_langs None (Some (lit "de")))
     (lit "Hello") (Scenario.piped [])).1
  = Scenario.piped [].
Proof.
  apply (resolve_languages_declared_world
           Scenario.caseless_table Scenario.detect_fr_en_ja
           (Scenario.cli_with_langs None (Some (lit "de")))
           (lit "Hello") (Scenario.piped [])).
  right. vm_compute. discriminate.
Defined.

(** X5 on [--input-lang 日本語 --output-lang ENGLISH]. *)
Lemma resolve_languages_declared_pair_witness :
  resolve_languages Scenario.caseless_table Scenario.detect_fr_en_ja
    (Scenario.cli_with_langs (Some nihongo) (Some (lit "ENGLISH")))
    (lit "Hello") (Scenario.piped [])
  = (Scenario.piped [], Return (lit "ja", lit "en")).
Proof.
  apply (resolve_languages_declared_pair
           Scenario.caseless_table Scenario.detect_fr_en_ja
           (Scenario.cli_with_langs (Some nihongo) (Some (lit "ENGLISH")))
           (lit "Hello") (Scenario.piped []) (lit "ja") (lit "en"));
    vm_compute; [reflexivity|reflexivity|discriminate].
Defined.

(** X7 with a detector that answers with one result for Japanese. *)
Lemma detect_lang_once_witness :
  (detect_lang Environments.detect_single_ja (lit "konnichiwa") (Scenario.piped [])).2
  = Return (lit "ja")
  /\ lit "ja" ∈ SUPPORTED_LANGS.
Proof.
  split; [vm_compute; reflexivity|].
  apply (proj1 (proj2 (detect_lang_once Environments.detect_single_ja
                         (lit "konnichiwa")
                         (Scenario.piped []))));
    vm_compute; reflexivity.
Defined.

Lemma build_prompt_on_supported (src tgt text : str) :
  src ∈ SUPPORTED_LANGS -> tgt ∈ SUPPORTED_LANGS ->
  exists src_name tgt_name,
    LANG_NAME_MAP !! src = Some src_name
    /\ LANG_NAME_MAP !! tgt = Some tgt_name
    /\ build_prompt src tgt text
       = Return (lit "Translate the following " ++ src_name ++ lit " text into "
                   ++ tgt_name ++ lit "." ++ [10; 10]%N ++ text).
Proof.
  intros [-> | ->]%supported_langs_cases [-> | ->]%supported_langs_cases;
    eexists _, _; (split; [reflexivity|split; [reflexivity|]]);
    rewrite <- (app_nil_r text) at 2; vm_compute; reflexivity.
Qed.

(** X8: a code outside the supported set has no language name: building
    the prompt fails with a [KeyError] for the source code first, for the
    target code otherwise. *)
Theorem build_prompt_unsupported (src tgt text : str) :
  (src ∉ SUPPORTED_LANGS -> build_prompt src tgt text = Raise (KeyError src))
  /\ (src ∈ SUPPORTED_LANGS -> tgt ∉ SUPPORTED_LANGS ->
      build_prompt src tgt text = Raise (KeyError tgt)).
Proof.
  assert (Hnone : forall code, code ∉ SUPPORTED_LANGS -> LANG_NAME_MAP !! code = None).
  { intros code Hc. rewrite supported_langs_cases in Hc.
    rewrite lang_name_map_lookup.
    rewrite !bool_decide_eq_false_2 by tauto. reflexivity. }
  unfold build_prompt. split.
  - intros Hs. now rewrite (Hnone src Hs).
  - intros Hs Ht. rewrite (Hnone tgt Ht).
    apply supported_langs_cases in Hs as [-> | ->]; reflexivity.
Qed.

(** X8 on the codes [fr] and [de]. *)
Lemma build_prompt_unsupported_witness :
  build_prompt (lit "fr") (lit "ja") (lit "Bonjour") = Raise (KeyError (lit "fr"))
  /\ build_prompt (lit "en") (lit "de") (lit "Hello") = Raise (KeyError (lit "de")).
Proof.
  split.
  - apply (proj1 (build_prompt_unsupported (lit "fr") (lit "ja") (lit "Bonjour"))).
    rewrite supported_langs_cases. intros [H|H]; discriminate H.
  - apply (proj2 (build_prompt_unsupported (lit "en") (lit "de") (lit "Hello"))).
    + apply supported_langs_cases. right. reflexivity.
    + rewrite supported_langs_cases. intros [H|H]; discriminate H.
Defined.

Section Running.
Variable unicode_lower_at : str -> nat -> list N.
Variable detect : str -> Z -> str -> detect_result.
Context {Model Tokenizer Sampler : Type}.
Variable load : str -> option bool -> Model * Tokenizer.
Variable has_apply_chat_template : Tokenizer -> bool.
Variable apply_chat_template : Tokenizer -> list (gmap str str) -> bool -> bool -> str.
Variable make_sampler : spec_float -> spec_float -> Z -> Sampler.
Variable generate : Model -> Tokenizer -> str -> gen_kwargs Sampler -> str.
Local Abbreviation normalize_lang := (CatTranslate.normalize_lang unicode_lower_at).
Local Abbreviation resolve_languages :=
  (CatTranslate.resolve_languages unicode_lower_at detect).
Local Abbreviation run_mlx :=
  (CatTranslate.run_mlx load has_apply_chat_template apply_chat_template
     make_sampler generate).
Local Abbreviation main :=
  (CatTranslate.main unicode_lower_at detect load has_apply_chat_template
     apply_chat_template make_sampler generate).

(** X9: with [--no-chat-template], or a tokenizer without a chat
    template, the prompt reaches [generate] as it is and the template is
    not rendered; otherwise [generate] gets the rendering of the prompt as
    the single user message, with a generation prompt and untokenized. *)
Theorem run_mlx_chat_template (prompt : str) (args : Namespace) (w : world Sampler) :
  let trust := if trust_remote_code args then Some true else None in
  let mdl := (load (path_str (model args)) trust).1 in
  let tokenizer := (load (path_str (model args)) trust).2 in
  let messages : list (gmap str str) :=
    [ {[ lit "role" := lit "user"; lit "content" := prompt ]} ] in
  (no_chat_template args = true \/ has_apply_chat_template tokenizer = false ->
   exists evs kwargs,
     run_mlx prompt args w
     = (log w (evs ++ [EvGenerate prompt kwargs]),
        Return (generate mdl tokenizer prompt kwargs))
     /\ forall ms, ~ In (EvApplyChatTemplate ms) evs)
  /\ (no_chat_template args = false -> has_apply_chat_template tokenizer = true ->
      exists evs kwargs,
        let rendered := apply_chat_template tokenizer messages true false in
        run_mlx prompt args w
        = (log w ([EvLoad (path_str (model args)) trust;
                   EvApplyChatTemplate messages]
                    ++ evs ++ [EvGenerate rendered kwargs]),
           Return (generate mdl tokenizer rendered kwargs))).
Proof.
  cbv zeta. unfold CatTranslate.run_mlx.
  destruct (load _ _) as [mdl tokenizer]. cbn [fst snd]. split.
  - intros Hoff.
    assert (Hno : negb (no_chat_template args) && has_apply_chat_template tokenizer
                  = false).
    { destruct Hoff as [-> | ->]; [reflexivity|apply andb_false_r]. }
    rewrite Hno. unfold bind, emit, modify, ret.
    destruct (wants_sampler args); rewrite !cli_log_log; cbn [app].
    + eexists [_; _], _. split; [reflexivity|].
      intros ms [H|[H|[]]]; discriminate H.
    + eexists [_], _. split; [reflexivity|].
      intros ms [H|[]]; discriminate H.
  - intros -> ->. cbn [negb andb]. unfold bind, emit, modify, ret.
    destruct (wants_sampler args); rewrite !cli_log_log; cbn [app].
    + eexists [_], _. reflexivity.
    + eexists [], _. reflexivity.
Qed.

Lemma read_text_trace (args : Namespace) (w : world Sampler) :
  trace (read_text args w).1 = trace w.
Proof.
  unfold read_text, bind, gets, stdin_read, raise, ret.
  destruct (text args); [reflexivity|].
  destruct (stdin_isatty w); [reflexivity|]. now case_bool_decide.
Qed.

Lemma resolve_languages_outcome (args : Namespace) (text : str) (w w' : world Sampler)
    (o : outcome exn (str * str)) :
  resolve_languages args text w = (w', o) ->
  match o with
  | Return (src, tgt) => src ∈ SUPPORTED_LANGS /\ tgt ∈ SUPPORTED_LANGS
  | Raise _ => w' = w \/ w' = log w [EvDetect text 3 (lit "auto")]
  end.
Proof.
  rewrite resolve_languages_branches.
  destruct (normalize_lang (input_lang args)) as [i|e] eqn:Hi.
  2:{ intros [= <- <-]. now left. }
  destruct (normalize_lang (output_lang args)) as [o'|e] eqn:Ho.
  2:{ intros [= <- <-]. now left. }
  destruct i as [i|], o' as [o'|].
  - apply normalize_lang_supported in Hi, Ho.
    rewrite !bool_decide_eq_false_2 by (intros Hn; now apply Hn). simpl.
    case_bool_decide; intros [= <- <-]; auto.
  - apply normalize_lang_supported in Hi. intros [= <- <-].
    split; [exact Hi|]. now apply other_lang_involution.
  - apply normalize_lang_supported in Ho. intros [= <- <-].
    split; [|exact Ho]. now apply other_lang_involution.
  - cbv zeta. destruct (first_supported _) as [lang|] eqn:Hf; intros [= <- <-].
    + apply first_supported_is_supported in Hf.
      split; [exact Hf|]. now apply other_lang_involution.
    + now right.
Qed.

(** X10: a failure to read the text or to resolve the languages is the
    failure of [main], and it comes before the model is touched: the trace
    holds at most the detector call, nothing is loaded, generated or
    printed.  A resolved pair always gives a prompt: building it raises
    neither [KeyError] nor [ValueError]. *)
Theorem main_fails_early (args : Namespace) (w : world Sampler) :
  (forall w1 e,
     read_text args w = (w1, Raise e) ->
     main args w = (w1, Raise e) /\ trace w1 = trace w)
  /\ (forall w1 text w2 e,
        read_text args w = (w1, Return text) ->
        resolve_languages args text w1 = (w2, Raise e) ->
        main args w = (w2, Raise e)
        /\ (trace w2 = trace w
            \/ trace w2 = trace w ++ [EvDetect text 3 (lit "auto")]))
  /\ (forall w1 text w2 src tgt,
        read_text args w = (w1, Return text) ->
        resolve_languages args text w1 = (w2, Return (src, tgt)) ->
        exists prompt, build_prompt src tgt text = Return prompt).
Proof.
  split; [|split].
  - intros w1 e Hread. pose proof (read_text_trace args w) as Htr.
    rewrite Hread in Htr. split; [|exact Htr].
    unfold CatTranslate.main, bind. now rewrite Hread.
  - intros w1 text w2 e Hread Hres. pose proof (read_text_trace args w) as Htr.
    rewrite Hread in Htr. cbn [fst] in Htr. split.
    + unfold CatTranslate.main, bind. now rewrite Hread, Hres.
    + destruct (resolve_languages_outcome _ _ _ _ _ Hres) as [-> | ->].
      * now left.
      * right. unfold log. cbn [trace]. now rewrite Htr.
  - intros w1 text w2 src tgt _ Hres.
    destruct (resolve_languages_outcome _ _ _ _ _ Hres) as [Hsrc Htgt].
    destruct (build_prompt_on_supported src tgt text Hsrc Htgt) as (sn & tn & _ & _ & Hp).
    eauto.
Qed.

End Running.

(** X9 with [--no-chat-template] and a tokenizer that has a template,
    and without the flag. *)
Lemma run_mlx_chat_template_witness :
  (exists evs kwargs,
     run_mlx Scenario.load Environments.has_chat_template Environments.chat_template
       Scenario.make_sampler Scenario.generate (lit "Hi")
       Environments.cli_no_chat_template (Scenario.piped [])
     = (log (Scenario.piped []) (evs ++ [EvGenerate (lit "Hi") kwargs]),
        Return (lit "Hi"))
     /\ forall ms, ~ In (EvApplyChatTemplate ms) evs)
  /\ (exists evs kwargs,
        run_mlx Scenario.load Environments.has_chat_template
          Environments.chat_template Scenario.make_sampler Scenario.generate
          (lit "Hi") Scenario.cli_defaults (Scenario.piped [])
        = (log (Scenario.piped [])
             ([EvLoad (lit "output/mlx/cyberagent/CAT-Translate-0.8b/q4") None;
               EvApplyChatTemplate
                 [ {[ lit "role" := lit "user"; lit "content" := lit "Hi" ]} ]]
                ++ evs ++ [EvGenerate (lit "<user>Hi<assistant>") kwargs]),
           Return (lit "<user>Hi<assistant>"))).
Proof.
  split.
  - apply (proj1 (run_mlx_chat_template Scenario.load Environments.has_chat_template
                    Environments.chat_template Scenario.make_sampler
                    Scenario.generate (lit "Hi") Environments.cli_no_chat_template
                    (Scenario.piped []))).
    left. reflexivity.
  - apply (proj2 (run_mlx_chat_template Scenario.load Environments.has_chat_template
                    Environments.chat_template Scenario.make_sampler
                    Scenario.generate (lit "Hi") Scenario.cli_defaults
                    (Scenario.piped []))); reflexivity.
Defined.

(** X10 on [--text Hello] with a detector that finds neither language. *)
Lemma main_fails_early_witness :
  main Scenario.caseless_table Scenario.detect_fr_de_es Scenario.load
    Scenario.has_apply_chat_template Scenario.apply_chat_template
    Scenario.make_sampler Scenario.generate Scenario.cli_defaults (Scenario.piped [])
  = (log (Scenario.piped []) [EvDetect (lit "Hello") 3 (lit "auto")],
     Raise (SystemExit (lit "Could not detect language as English or Japanese.")))
  /\ (trace (log (Scenario.piped []) [EvDetect (lit "Hello") 3 (lit "auto")])
      = trace (Scenario.piped [])
      \/ trace (log (Scenario.piped []) [EvDetect (lit "Hello") 3 (lit "auto")])
         = trace (Scenario.piped []) ++ [EvDetect (lit "Hello") 3 (lit "auto")]).
Proof.
  apply (proj1 (proj2 (main_fails_early Scenario.caseless_table
                         Scenario.detect_fr_de_es Scenario.load
                         Scenario.has_apply_chat_template
                         Scenario.apply_chat_template Scenario.make_sampler
                         Scenario.generate Scenario.cli_defaults (Scenario.piped [])))
           (Scenario.piped []) (lit "Hello"));
    vm_compute; reflexivity.
Defined.


End CatTranslateMore.


(** ** More on the conversion driver *)

Module ToMlxMore.
Import ToMlx ToMlxSpec.

Lemma lookup_kind_insert_dir (m : gmap Path kind) (p q : Path) :
  lookup_kind m q = Some Dir -> lookup_kind (<[p := Dir]> m) q = Some Dir.
Proof.
  unfold lookup_kind. destruct (parts q); [auto|].
  intros Hq. destruct (decide (p = q)) as [->|Hne].
  - apply lookup_insert_eq.
  - now rewrite lookup_insert_ne.
Qed.

Lemma os_mkdir_created (p : Path) (m m' : gmap Path kind) :
  os_mkdir p m = inl m' ->
  m !! p = None /\ lookup_kind m (parent p) = Some Dir /\ m' = <[p := Dir]> m.
Proof.
  unfold os_mkdir. destruct (lookup_kind m p) eqn:Hp; [discriminate|].
  destruct (lookup_kind m (parent p)) as [[|]|] eqn:Hpar; try discriminate.
  intros [= <-]. repeat split.
  unfold lookup_kind in Hp. now destruct (parts p).
Qed.

(** What one successful [os.mkdir] does to the file system: one new
    directory, under a directory, everything else as before. *)
Lemma os_mkdir_grows (p : Path) (m m' : gmap Path kind) :
  os_mkdir p m = inl m' ->
  (forall q, m' !! q = m !! q \/ (m !! q = None /\ m' !! q = Some Dir))
  /\ lookup_kind m' p = Some Dir
  /\ (fs_wf m -> fs_wf m').
Proof.
  intros (Hnone & Hpar & ->)%os_mkdir_created. repeat split.
  - intros q. destruct (decide (p = q)) as [<-|Hne].
    + right. split; [exact Hnone|apply lookup_insert_eq].
    + left. now apply lookup_insert_ne.
  - unfold lookup_kind. destruct (parts p); [reflexivity|apply lookup_insert_eq].
  - intros Hwf. unfold fs_wf. apply map_Forall_insert_2.
    + now apply lookup_kind_insert_dir.
    + intros q k Hq. apply lookup_kind_insert_dir. exact (Hwf q k Hq).
Qed.

Lemma grows_trans (m m1 m2 : gmap Path kind) :
  (forall q, m1 !! q = m !! q \/ (m !! q = None /\ m1 !! q = Some Dir)) ->
  (forall q, m2 !! q = m1 !! q \/ (m1 !! q = None /\ m2 !! q = Some Dir)) ->
  forall q, m2 !! q = m !! q \/ (m !! q = None /\ m2 !! q = Some Dir).
Proof.
  intros H1 H2 q. destruct (H1 q) as [E1|[N1 D1]], (H2 q) as [E2|[N2 D2]];
    try (left; congruence); try (right; split; congruence).
Qed.

Lemma mkdir_leaf_grows (p : Path) (m m' : gmap Path kind) (o : outcome exn unit) :
  mkdir_leaf p m = (m', o) ->
  (forall q, m' !! q = m !! q \/ (m !! q = None /\ m' !! q = Some Dir))
  /\ (o = Return tt -> lookup_kind m' p = Some Dir)
  /\ (fs_wf m -> fs_wf m').
Proof.
  unfold mkdir_leaf. destruct (os_mkdir p m) as [m1|e] eqn:Hmk.
  - intros [= <- <-]. destruct (os_mkdir_grows _ _ _ Hmk) as (? & ? & ?). auto.
  - assert (Hsame : forall o', (m, o') = (m', o) ->
                (forall q, m' !! q = m !! q \/ (m !! q = None /\ m' !! q = Some Dir))
                /\ (fs_wf m -> fs_wf m')).
    { intros o' [= <- _]. auto. }
    destruct e; try (unfold is_dir; case_bool_decide as Hd);
      intros Heq; destruct (Hsame _ Heq) as [? ?];
      injection Heq as <- <-; repeat split; auto; discriminate.
Qed.

Lemma mkdir_parents_rev_grows (r : str) (rparts : list str) :
  forall (m m' : gmap Path kind) (o : outcome exn unit),
    mkdir_parents_rev r rparts m = (m', o) ->
    (forall q, m' !! q = m !! q \/ (m !! q = None /\ m' !! q = Some Dir))
    /\ (o = Return tt -> lookup_kind m' (mkPath r (rev rparts)) = Some Dir)
    /\ (fs_wf m -> fs_wf m').
Proof.
  induction rparts as [|x rparts IH]; intros m m' o; cbn [mkdir_parents_rev];
    destruct (os_mkdir _ m) as [m1|e] eqn:Hmk.
  - intros [= <- <-]. destruct (os_mkdir_grows _ _ _ Hmk) as (? & ? & ?). auto.
  - destruct e; try (unfold is_dir; case_bool_decide as Hd);
      intros [= <- <-]; repeat split; auto; discriminate.
  - intros [= <- <-]. destruct (os_mkdir_grows _ _ _ Hmk) as (? & ? & ?). auto.
  - destruct e; try (unfold is_dir; case_bool_decide as Hd);
      try (intros [= <- <-]; repeat split; auto; discriminate).
    destruct (mkdir_parents_rev r rparts m) as [m1 [[]|e1]] eqn:Hrec;
      destruct (IH _ _ _ Hrec) as (Hg1 & _ & Hwf1).
    + intros Hleaf. destruct (mkdir_leaf_grows _ _ _ _ Hleaf) as (Hg2 & Hd2 & Hwf2).
      repeat split; auto. now apply (grows_trans m m1 m').
    + intros [= <- <-]. repeat split; auto. discriminate.
Qed.

(** X12: [mkdir(parents=True, exist_ok=True)] only ever adds
    directories: every entry that was there is still there unchanged, the
    trace is untouched, a well-formed file system stays well-formed, and
    when the call returns the path is a directory. *)
Theorem mkdir_parents_only_adds (p : Path) (w : world) :
  trace (mkdir_parents p w).1 = trace w
  /\ (forall q,
        fs (mkdir_parents p w).1 !! q = fs w !! q
        \/ (fs w !! q = None /\ fs (mkdir_parents p w).1 !! q = Some Dir))
  /\ ((mkdir_parents p w).2 = Return tt ->
      lookup_kind (fs (mkdir_parents p w).1) p = Some Dir)
  /\ (fs_wf (fs w) -> fs_wf (fs (mkdir_parents p w).1)).
Proof.
  unfold mkdir_parents.
  destruct (mkdir_parents_rev (root p) (rev (parts p)) (fs w)) as [m' o] eqn:Hmk.
  destruct (mkdir_parents_rev_grows _ _ _ _ _ Hmk) as (Hg & Hd & Hwf).
  cbn [fst snd fs trace]. repeat split; auto.
  intros Ho. specialize (Hd Ho). rewrite rev_involutive in Hd. now destruct p.
Qed.

(** X12 on [out/m1] and an empty disk: both directories are made. *)
Lemma mkdir_parents_only_adds_witness :
  (mkdir_parents (PathOf (lit "out/m1")) (Scenario.disk [])).2 = Return tt
  /\ lookup_kind (fs (mkdir_parents (PathOf (lit "out/m1")) (Scenario.disk [])).1)
       (PathOf (lit "out/m1")) = Some Dir
  /\ fs_wf (fs (mkdir_parents (PathOf (lit "out/m1")) (Scenario.disk [])).1).
Proof.
  split; [vm_compute; reflexivity|]. split.
  - apply (proj1 (proj2 (proj2 (mkdir_parents_only_adds (PathOf (lit "out/m1"))
                                  (Scenario.disk []))))).
    vm_compute. reflexivity.
  - apply (proj2 (proj2 (proj2 (mkdir_parents_only_adds (PathOf (lit "out/m1"))
                                  (Scenario.disk []))))).
    apply (bool_decide_unpack _). vm_compute. exact I.
Defined.

(** X16: for a supported bit-width the output path is the directory
    [q4] or [q8] directly under [output_dir / model], so the directory
    made beforehand is [output_dir / model], and the 4-bit and the 8-bit
    output of one model never share a path. *)
Theorem out_dir_layout (args : Namespace) (model : str) (qbits : Z) :
  (qbits ∈ SUPPORTED_QBITS ->
   parent (out_dir_of args model qbits) = truediv (output_dir args) model
   /\ parts (out_dir_of args model qbits)
      = parts (truediv (output_dir args) model) ++ [lit "q" ++ str_of_int qbits])
  /\ out_dir_of args model 4 <> out_dir_of args model 8.
Proof.
  assert (Hq : forall (p : Path) (key : str),
             PathOf key = mkPath [] [key] ->
             truediv p key = mkPath (root p) (parts p ++ [key])).
  { intros p0 key Hkey. unfold truediv. now rewrite Hkey. }
  split.
  - intros [-> | ->]%supported_qbits_cases; unfold out_dir_of;
      rewrite Hq by reflexivity; unfold parent; cbn [root parts];
      rewrite removelast_last; (split; [now destruct (truediv _ _)|reflexivity]).
  - unfold out_dir_of. rewrite !Hq by reflexivity.
    intros [= H]. apply app_inj_tail in H as [_ H]. discriminate H.
Qed.

(** X16 on [--output-dir out], the model [m1] and 8 bits. *)
Lemma out_dir_layout_witness :
  parent (out_dir_of (Scenario.convert_args ["m1"]%string [8]%Z) (lit "m1") 8)
  = PathOf (lit "out/m1")
  /\ parts (out_dir_of (Scenario.convert_args ["m1"]%string [8]%Z) (lit "m1") 8)
     = [lit "out"; lit "m1"; lit "q8"].
Proof.
  apply (proj1 (out_dir_layout (Scenario.convert_args ["m1"]%string [8]%Z)
                  (lit "m1") 8)).
  apply supported_qbits_cases. right. reflexivity.
Defined.

Section Driving.
Variable sys_executable : str.
Variable subprocess_run : list str -> gmap Path kind -> gmap Path kind * Z.
Local Abbreviation command_of := (ToMlx.command_of sys_executable).
Local Abbreviation job := (ToMlx.job sys_executable subprocess_run).
Local Abbreviation main := (ToMlx.main sys_executable subprocess_run).

(** The line [job] prints before it runs a command. *)
Local Abbreviation announce cmd :=
  (EvStdout (lit "Running: " ++ join (lit " ") (map shlex_quote cmd) ++ [10%N])).

(** The three ways a job can go, by what [mkdir], the existence test and
    the child process say. *)
Lemma job_cases (args : Namespace) (model : str) (qbits : Z) (w : world) :
  let out_dir := out_dir_of args model qbits in
  let cmd := command_of args model qbits in
  let w1 := (mkdir_parents (parent out_dir) w).1 in
  job args model qbits w =
    match (mkdir_parents (parent out_dir) w).2 with
    | Raise e => (w1, Raise e)
    | Return _ =>
        if path_exists (fs w1) out_dir then
          (w1, Raise (SystemExit
                        (lit "Output path already exists: " ++ path_str out_dir
                           ++ lit ". "
                           ++ lit "Please delete/move it or choose another output directory.")))
        else
          ({| fs := (subprocess_run cmd (fs w1)).1;
              trace := trace w ++ [announce cmd; EvRun cmd] |},
           if ((subprocess_run cmd (fs w1)).2 =? 0)%Z then Return tt
           else Raise (CalledProcessError (subprocess_run cmd (fs w1)).2 cmd))
    end.
Proof.
  cbv zeta. unfold ToMlx.job, bind, gets.
  pose proof (proj1 (mkdir_parents_only_adds
                       (parent (out_dir_of args model qbits)) w)) as Htr.
  destruct (mkdir_parents _ w) as [w1 [[]|e]]; cbn [fst snd] in *; [|reflexivity].
  destruct (path_exists (fs w1) _); [reflexivity|].
  unfold emit, modify, run_checked, log. cbn [fs trace].
  destruct (subprocess_run _ _) as [m2 rc]. cbn [fst snd].
  rewrite Htr, <- app_assoc. now destruct (rc =? 0)%Z.
Qed.

(** X13: whenever a job starts the conversion tool, the destination does
    not exist and the directory above it does: the tool is never pointed at
    an existing output. *)
Theorem job_runs_on_fresh_destination
    (args : Namespace) (model : str) (qbits : Z) (w : world) :
  let out_dir := out_dir_of args model qbits in
  let w1 := (mkdir_parents (parent out_dir) w).1 in
  commands_run (trace (job args model qbits w).1) <> commands_run (trace w) ->
  lookup_kind (fs w1) (parent out_dir) = Some Dir
  /\ path_exists (fs w1) out_dir = false
  /\ fs (job args model qbits w).1
     = (subprocess_run (command_of args model qbits) (fs w1)).1.
Proof.
  cbv zeta. rewrite job_cases. cbv zeta.
  destruct (mkdir_parents_only_adds (parent (out_dir_of args model qbits)) w)
    as (Htr & _ & Hdir & _).
  destruct ((mkdir_parents _ w).2) as [[]|e]; cbn [fst snd].
  - destruct (path_exists _ _) eqn:Hex; cbn [fst snd fs].
    + rewrite Htr. congruence.
    + intros _. auto.
  - rewrite Htr. congruence.
Qed.

(** X15: every command is announced on standard output, shell-quoted,
    right before it is run, and nothing else is printed or run: what [main]
    adds to the trace is a sequence of such pairs. *)
Theorem main_announces_each_command (args : Namespace) (w : world) :
  exists cmds,
    trace (main args w).1
    = trace w ++ flat_map (fun cmd => [announce cmd; EvRun cmd]) cmds.
Proof.
  assert (Hjob : forall model qbits w0,
             exists cmds,
               trace (job args model qbits w0).1
               = trace w0 ++ flat_map (fun cmd => [announce cmd; EvRun cmd]) cmds).
  { intros model qbits w0. rewrite job_cases. cbv zeta.
    pose proof (proj1 (mkdir_parents_only_adds
                         (parent (out_dir_of args model qbits)) w0)) as Htr.
    destruct ((mkdir_parents _ w0).2) as [[]|e]; cbn [fst snd].
    - destruct (path_exists _ _); cbn [fst snd trace].
      + exists []. now rewrite Htr, app_nil_r.
      + exists [command_of args model qbits]. reflexivity.
    - exists []. now rewrite Htr, app_nil_r. }
  assert (Hloop : forall (jobs : list (str * Z)) w0,
             exists cmds,
               trace (for_each jobs (fun mq => job args mq.1 mq.2) w0).1
               = trace w0 ++ flat_map (fun cmd => [announce cmd; EvRun cmd]) cmds).
  { induction jobs as [|[m q] jobs IH]; intros w0; simpl.
    - exists []. now rewrite app_nil_r.
    - unfold bind. destruct (Hjob m q w0) as [c1 H1].
      destruct (job args m q w0) as [w1 [[]|e]]; cbn [fst snd] in *.
      + destruct (IH w1) as [c2 H2]. exists (c1 ++ c2).
        now rewrite H2, H1, flat_map_app, app_assoc.
      + now exists c1. }
  unfold ToMlx.main. destruct (invalid_qbits args).
  - unfold bind. rewrite for_each_nested.
    destruct (Hloop (flat_map (fun m => map (fun q => (m, q)) (qbits args))
                       (models_of args)) w) as [cmds Hc].
    destruct (for_each _ _ w) as [w1 [[]|e]]; now exists cmds.
  - exists []. cbn [raise fst trace]. now rewrite app_nil_r.
Qed.

(** X14: a conversion command that exits with a non-zero status stops
    [main] there with [CalledProcessError] for that status and command: the
    jobs after it are not started. *)
Theorem main_stops_at_failed_command
    (args : Namespace) (w w1 : world) (before after : list (str * Z))
    (model : str) (qbits : Z) :
  let out_dir := out_dir_of args model qbits in
  let cmd := command_of args model qbits in
  let w2 := (mkdir_parents (parent out_dir) w1).1 in
  Forall (fun q => q ∈ SUPPORTED_QBITS) (ToMlx.qbits args) ->
  flat_map (fun m => map (fun q => (m, q)) (ToMlx.qbits args)) (models_of args)
  = before ++ (model, qbits) :: after ->
  for_each before (fun mq => job args mq.1 mq.2) w = (w1, Return tt) ->
  (mkdir_parents (parent out_dir) w1).2 = Return tt ->
  path_exists (fs w2) out_dir = false ->
  (subprocess_run cmd (fs w2)).2 <> 0%Z ->
  main args w
  = ({| fs := (subprocess_run cmd (fs w2)).1;
        trace := trace w1 ++ [announce cmd; EvRun cmd] |},
     Raise (CalledProcessError (subprocess_run cmd (fs w2)).2 cmd)).
Proof.
  cbv zeta. intros Hvalid Hjobs Hbefore Hmk Hfresh Hrc.
  rewrite (main_valid _ _ args w Hvalid), Hjobs. unfold bind at 1.
  rewrite for_each_app. unfold bind at 1. rewrite Hbefore.
  cbn [for_each]. unfold bind at 1. cbn [fst snd].
  rewrite job_cases. cbv zeta. rewrite Hmk, Hfresh.
  apply Z.eqb_neq in Hrc. now rewrite Hrc.
Qed.

(** X17: if the conversion tool leaves every existing entry of the file
    system as it is, so does [main], however the run ends: the driver
    itself removes and overwrites nothing. *)
Theorem main_keeps_existing_entries (args : Namespace) (w : world) :
  (forall cmd m p k, m !! p = Some k -> (subprocess_run cmd m).1 !! p = Some k) ->
  forall p k, fs w !! p = Some k -> fs (main args w).1 !! p = Some k.
Proof.
  intros Htool.
  assert (Hjob : forall model qbits w0 p k,
             fs w0 !! p = Some k -> fs (job args model qbits w0).1 !! p = Some k).
  { intros model qbits w0 p k Hp. rewrite job_cases. cbv zeta.
    destruct (mkdir_parents_only_adds (parent (out_dir_of args model qbits)) w0)
      as (_ & Hgrow & _ & _).
    assert (Hp1 : fs (mkdir_parents (parent (out_dir_of args model qbits)) w0).1 !! p
                  = Some k).
    { destruct (Hgrow p) as [-> | [Hn _]]; congruence. }
    destruct ((mkdir_parents _ w0).2) as [[]|e]; cbn [fst snd]; [|exact Hp1].
    destruct (path_exists _ _); cbn [fst snd fs]; [exact Hp1|].
    now apply Htool. }
  assert (Hloop : forall (jobs : list (str * Z)) w0 p k,
             fs w0 !! p = Some k ->
             fs (for_each jobs (fun mq => job args mq.1 mq.2) w0).1 !! p = Some k).
  { induction jobs as [|[m q] jobs IH]; intros w0 p k Hp; simpl; [exact Hp|].
    unfold bind. pose proof (Hjob m q w0 p k Hp) as H1.
    destruct (job args m q w0) as [w1 [[]|e]]; cbn [fst snd] in *; auto. }
  intros p k Hp. unfold ToMlx.main. destruct (invalid_qbits args); [|exact Hp].
  unfold bind. rewrite for_each_nested.
  pose proof (Hloop (flat_map (fun m => map (fun q => (m, q)) (qbits args))
                       (models_of args)) w p k Hp) as H.
  destruct (for_each _ _ w) as [w1 [[]|e]]; exact H.
Qed.
(** X18: if the conversion tool leaves a well-formed file system
    well-formed, then so is the file system every job starts from and the
    one [main] ends with: the directories the driver makes always lie in
    directories. *)
Theorem main_keeps_fs_wf (args : Namespace) (w : world) :
  (forall cmd m, fs_wf m -> fs_wf (subprocess_run cmd m).1) ->
  fs_wf (fs w) ->
  (forall jobs : list (str * Z),
     fs_wf (fs (for_each jobs (fun mq => job args mq.1 mq.2) w).1))
  /\ fs_wf (fs (main args w).1).
Proof.
  intros Htool Hw.
  assert (Hjob : forall model qbits w0,
             fs_wf (fs w0) -> fs_wf (fs (job args model qbits w0).1)).
  { intros model qbits w0 Hwf. rewrite job_cases. cbv zeta.
    destruct (mkdir_parents_only_adds (parent (out_dir_of args model qbits)) w0)
      as (_ & _ & _ & Hkeep). specialize (Hkeep Hwf).
    destruct ((mkdir_parents _ w0).2) as [[]|e]; cbn [fst snd]; [|exact Hkeep].
    destruct (path_exists _ _); cbn [fst snd fs]; [exact Hkeep|].
    now apply Htool. }
  assert (Hloop : forall (jobs : list (str * Z)) w0,
             fs_wf (fs w0) ->
             fs_wf (fs (for_each jobs (fun mq => job args mq.1 mq.2) w0).1)).
  { induction jobs as [|[m q] jobs IH]; intros w0 Hwf; simpl; [exact Hwf|].
    unfold bind. pose proof (Hjob m q w0 Hwf) as H1.
    destruct (job args m q w0) as [w1 [[]|e]]; cbn [fst snd] in *; auto. }
  split; [intros jobs; now apply Hloop|].
  unfold ToMlx.main. destruct (invalid_qbits args); [|exact Hw].
  unfold bind. rewrite for_each_nested.
  pose proof (Hloop (flat_map (fun m => map (fun q => (m, q)) (qbits args))
                       (models_of args)) w Hw) as H.
  destruct (for_each _ _ w) as [w1 [[]|e]]; exact H.
Qed.
End Driving.


(** X13 on the 8-bit conversion of [m1] on an empty disk. *)
Lemma job_runs_on_fresh_destination_witness :
  commands_run
    (trace (job (lit "python3") Scenario.convert_ok
              (Scenario.convert_args ["m1"]%string [8]%Z) (lit "m1") 8
              (Scenario.disk [])).1)
  <> commands_run (trace (Scenario.disk []))
  /\ (lookup_kind
        (fs (mkdir_parents
               (parent (out_dir_of (Scenario.convert_args ["m1"]%string [8]%Z)
                          (lit "m1") 8))
               (Scenario.disk [])).1)
        (parent (out_dir_of (Scenario.convert_args ["m1"]%string [8]%Z) (lit "m1") 8))
      = Some Dir
      /\ path_exists
           (fs (mkdir_parents
                  (parent (out_dir_of (Scenario.convert_args ["m1"]%string [8]%Z)
                             (lit "m1") 8))
                  (Scenario.disk [])).1)
           (out_dir_of (Scenario.convert_args ["m1"]%string [8]%Z) (lit "m1") 8)
         = false
      /\ fs (job (lit "python3") Scenario.convert_ok
               (Scenario.convert_args ["m1"]%string [8]%Z) (lit "m1") 8
               (Scenario.disk [])).1
         = (Scenario.convert_ok
              (command_of (lit "python3") (Scenario.convert_args ["m1"]%string [8]%Z)
                 (lit "m1") 8)
              (fs (mkdir_parents
                     (parent (out_dir_of (Scenario.convert_args ["m1"]%string [8]%Z)
                                (lit "m1") 8))
                     (Scenario.disk [])).1)).1).
Proof.
  assert (H : commands_run
                (trace (job (lit "python3") Scenario.convert_ok
                          (Scenario.convert_args ["m1"]%string [8]%Z) (lit "m1") 8
                          (Scenario.disk [])).1)
              <> commands_run (trace (Scenario.disk [])))
    by (vm_compute; discriminate).
  split; [exact H|].
  exact (job_runs_on_fresh_destination (lit "python3") Scenario.convert_ok
           (Scenario.convert_args ["m1"]%string [8]%Z) (lit "m1") 8
           (Scenario.disk []) H).
Defined.

(** X14 on [--model m1 --qbits 8 4] with a tool that exits with 1: the
    4-bit job is not started. *)
Lemma main_stops_at_failed_command_witness :
  main (lit "python3") Environments.tool_failing
    (Scenario.convert_args ["m1"]%string [8; 4]%Z) (Scenario.disk [])
  = ({| fs := Scenario.dirs ["out"; "out/m1"]%string;
        trace :=
          [ EvStdout
              (lit "Running: python3 -m mlx_lm convert --hf-path m1 --mlx-path out/m1/q8 -q --q-bits 8"
                 ++ [10%N]);
            EvRun (Scenario.convert_command "m1" "out/m1/q8" "8") ] |},
     Raise (CalledProcessError 1 (Scenario.convert_command "m1" "out/m1/q8" "8"))).
Proof.
  apply (main_stops_at_failed_command (lit "python3") Environments.tool_failing
           (Scenario.convert_args ["m1"]%string [8; 4]%Z)
           (Scenario.disk []) (Scenario.disk []) [] [(lit "m1", 4%Z)] (lit "m1") 8%Z).
  - repeat constructor; rewrite supported_qbits_cases; lia.
  - reflexivity.
  - reflexivity.
  - vm_compute. reflexivity.
  - vm_compute. reflexivity.
  - vm_compute. discriminate.
Defined.

(** X17 with a tool that touches nothing: the directory left by an
    earlier run is still there after a run that is refused. *)
Lemma main_keeps_existing_entries_witness :
  fs (main (lit "python3") Environments.tool_idle
        (Scenario.convert_args ["m1"]%string [8; 4]%Z) Scenario.disk_with_q4).1
  !! PathOf (lit "out/m1/q4") = Some Dir.
Proof.
  apply (main_keeps_existing_entries (lit "python3") Environments.tool_idle
           (Scenario.convert_args ["m1"]%string [8; 4]%Z) Scenario.disk_with_q4).
  - intros cmd m p k Hp. exact Hp.
  - vm_compute. reflexivity.
Defined.

(** X18 with a tool that touches nothing, on a disk that holds
    [out/m1/q4]. *)
Lemma main_keeps_fs_wf_witness :
  fs_wf (fs (main (lit "python3") Environments.tool_idle
               (Scenario.convert_args ["m1"]%string [8; 4]%Z)
               Scenario.disk_with_q4).1).
Proof.
  apply (proj2 (main_keeps_fs_wf (lit "python3") Environments.tool_idle
                  (Scenario.convert_args ["m1"]%string [8; 4]%Z)
                  Scenario.disk_with_q4
                  (fun cmd m Hm => Hm)
                  ltac:(apply (bool_decide_unpack _); vm_compute; exact I))).
Defined.

End ToMlxMore.
